(** * CV_Screener: a shallow embedding of the batch pipeline

    The development follows the three source files of the backend:
    - [api_client.py]  (class [GeminiAIClient]): retry loop and response
      validation;
    - [cv_screener.py] (class [CVScreener]): extraction, per-document
      processing, report generation, cleanup;
    - [main.py]: the task registry and the three request handlers.

    Python code is embedded as state-passing functions in a small monad
    that threads the mutable world, propagates exceptions, and records
    every state the program passes through. External collaborators (the
    archive reader, libmagic, the PDF renderer, the chat-completion
    service, the JSON decoder, the spreadsheet writer, the clock) are
    fields of an environment record: the code is verified for every
    behaviour of theirs. *)

From Stdlib Require Import String Ascii List ZArith Lia Bool Arith.
From stdpp Require Import base option list gmap strings.

Local Open Scope string_scope.
Local Open Scope list_scope.
Local Open Scope stdpp_scope.

(* ===================================================================== *)
(** ** Python values: exceptions, results, JSON                          *)
(* ===================================================================== *)

(** A raised exception: its class name and the text [str(e)] yields. *)
Record exn := Exn { exn_class : string; str : string }.

Definition ValueError (m : string) : exn := Exn "ValueError" m.
Definition TypeError (m : string) : exn := Exn "TypeError" m.
Definition IndexError (m : string) : exn := Exn "IndexError" m.
Definition OSError (m : string) : exn := Exn "OSError" m.
Definition IsADirectoryError (m : string) : exn := Exn "IsADirectoryError" m.
Definition FileNotFoundError (m : string) : exn := Exn "FileNotFoundError" m.

(** The outcome of evaluating a Python expression or call. *)
Inductive res (A : Type) : Type :=
| Return (a : A)
| Raise (e : exn).
Arguments Return {A} a.
Arguments Raise {A} e.

(** What [json.loads] produces. Objects are Python dicts (insertion
    ordered, keys unique); numbers that are not integers keep their
    literal. *)
#[warnings="-register-all"]
Inductive json : Type :=
| JNull
| JBool (b : bool)
| JInt (z : Z)
| JFloat (literal : string)
| JStr (s : string)
| JArr (items : list json)
| JObj (members : list (string * json)).

(** A Python dict with string keys, in insertion order. *)
Definition dict := list (string * json).

Definition dict_in (k : string) (d : dict) : bool :=
  existsb (fun kv => String.eqb k (fst kv)) d.

Fixpoint dict_get (k : string) (d : dict) : option json :=
  match d with
  | [] => None
  | (k', v) :: d' => if String.eqb k k' then Some v else dict_get k d'
  end.

(** [d[k] = v]: an existing key keeps its position. *)
Fixpoint dict_set (k : string) (v : json) (d : dict) : dict :=
  match d with
  | [] => [(k, v)]
  | (k', v') :: d' =>
      if String.eqb k k' then (k, v) :: d' else (k', v') :: dict_set k v d'
  end.

(** [{**d, **extra}]. *)
Definition dict_merge (d extra : dict) : dict :=
  fold_left (fun acc kv => dict_set (fst kv) (snd kv) acc) extra d.

(* ===================================================================== *)
(** ** String helpers used by the source                                 *)
(* ===================================================================== *)

(** [str.lower] on ASCII letters. *)
Definition lower_ascii (c : ascii) : ascii :=
  let n := nat_of_ascii c in
  if (65 <=? n)%nat && (n <=? 90)%nat then ascii_of_nat (n + 32) else c.

Fixpoint lower (s : string) : string :=
  match s with
  | EmptyString => EmptyString
  | String c s' => String (lower_ascii c) (lower s')
  end.

(** [s.endswith(suffix)]. *)
Definition endswith (s suffix : string) : bool :=
  let n := String.length s in
  let m := String.length suffix in
  (m <=? n)%nat && String.eqb (substring (n - m) m s) suffix.

(** [needle in haystack] for two Python strings. *)
Fixpoint str_contains (needle haystack : string) : bool :=
  String.prefix needle haystack ||
  match haystack with
  | EmptyString => false
  | String _ rest => str_contains needle rest
  end.

Definition slash : ascii := "/"%char.

(** [os.path.basename]: what follows the last separator. *)
Fixpoint basename_from (acc s : string) : string :=
  match s with
  | EmptyString => acc
  | String c s' =>
      if Ascii.eqb c slash then basename_from EmptyString s'
      else basename_from (acc +:+ String c EmptyString) s'
  end.

Definition basename (p : string) : string := basename_from EmptyString p.

(** The first component of a relative path, and whether there are more. *)
Fixpoint top_component (s : string) : string :=
  match s with
  | EmptyString => EmptyString
  | String c s' =>
      if Ascii.eqb c slash then EmptyString else String c (top_component s')
  end.

Fixpoint has_slash (s : string) : bool :=
  match s with
  | EmptyString => false
  | String c s' => Ascii.eqb c slash || has_slash s'
  end.

(** [os.path.join(a, b)] for a relative [b]. *)
Definition path_join (a b : string) : string := a +:+ "/" +:+ b.

(** [", ".join(xs)]. *)
Fixpoint join (sep : string) (xs : list string) : string :=
  match xs with
  | [] => EmptyString
  | [x] => x
  | x :: xs' => x +:+ sep +:+ join sep xs'
  end.

(** Zero-padded decimal fields, as [strftime] prints them. *)
Definition digit (n : nat) : ascii := ascii_of_nat (48 + n mod 10).

Definition pad2 (n : nat) : string :=
  String (digit (n / 10)) (String (digit n) EmptyString).

Definition pad4 (n : nat) : string := pad2 (n / 100) +:+ pad2 (n mod 100).

Definition is_digit (c : ascii) : bool :=
  let n := nat_of_ascii c in (48 <=? n)%nat && (n <=? 57)%nat.

Fixpoint all_digits (s : string) : bool :=
  match s with
  | EmptyString => true
  | String c s' => is_digit c && all_digits s'
  end.

(* ===================================================================== *)
(** ** The execution monad                                               *)
(* ===================================================================== *)

(** A run from a state: how it ends, the state it leaves, and every
    state it went through (one entry per primitive step, in order).
    Python keeps all side effects made before an exception. *)
Record run (S A : Type) : Type :=
  Run { outcome : res A; final : S; visited : list S }.
Arguments Run {S A} outcome final visited.
Arguments outcome {S A} r.
Arguments final {S A} r.
Arguments visited {S A} r.

Definition M (S A : Type) : Type := S -> run S A.

Definition ret {S A} (a : A) : M S A := fun s => Run (Return a) s [].

Definition raise {S A} (e : exn) : M S A := fun s => Run (Raise e) s [].

Definition bind {S A B} (m : M S A) (f : A -> M S B) : M S B :=
  fun s =>
    let r := m s in
    match outcome r with
    | Return a =>
        let r' := f a (final r) in
        Run (outcome r') (final r') (visited r ++ visited r')
    | Raise e => Run (Raise e) (final r) (visited r)
    end.

(** One primitive step: the state changes and the new state is visible. *)
Definition step {S A} (f : S -> res A * S) : M S A :=
  fun s => let (r, s') := f s in Run r s' [s'].

Definition modify {S} (f : S -> S) : M S unit :=
  step (fun s => (Return tt, f s)).

Definition gets {S A} (f : S -> A) : M S A := fun s => Run (Return (f s)) s [].

(** A pure computation that may raise. *)
Definition lift {S A} (r : res A) : M S A := fun s => Run r s [].

(** [try: m  except Exception as e: h e]. *)
Definition try_except {S A} (m : M S A) (h : exn -> M S A) : M S A :=
  fun s =>
    let r := m s in
    match outcome r with
    | Return _ => r
    | Raise e =>
        let r' := h e (final r) in
        Run (outcome r') (final r') (visited r ++ visited r')
    end.

(** [try: m  finally: fin]. The handler always runs; when it raises, its
    exception replaces whatever [m] produced. *)
Definition try_finally {S A} (m : M S A) (fin : M S unit) : M S A :=
  fun s =>
    let r := m s in
    let r' := fin (final r) in
    Run (match outcome r' with
         | Return _ => outcome r
         | Raise e => Raise e
         end)
        (final r') (visited r ++ visited r').

Notation "x <- m ;; k" := (bind m (fun x => k))
  (at level 100, m at next level, right associativity).
Notation "m ;;; k" := (bind m (fun _ => k))
  (at level 100, right associativity).

(** [for x in xs: body x]. *)
Fixpoint for_each {S A} (xs : list A) (body : A -> M S unit) : M S unit :=
  match xs with
  | [] => ret tt
  | x :: xs' => body x ;;; for_each xs' body
  end.

(** Every state of a run of [m] from [s]: [s] itself, then one state per
    primitive step. *)
Definition trajectory {S A} (m : M S A) (s : S) : list S :=
  s :: visited (m s).

(* ===================================================================== *)
(** ** Data of the application                                           *)
(* ===================================================================== *)

Definition bytes := list Byte.byte.

(** [role_data], the dict built by [process_cvs_task]. *)
Record RoleData := {
  position : string;
  requirements_must_have : list string;
  requirements_nice_to_have : list string
}.

(** The chat-completion response: the [message.content] of each choice
    ([None] when the service sends no text). *)
Record Response := { choices : list (option string) }.

(** One member of an opened archive. *)
Record ZipEntry := { name : string; data : bytes }.

(** [datetime.now()]. *)
Record datetime := {
  year : nat; month : nat; day : nat;
  hour : nat; minute : nat; second : nat; microsecond : nat
}.

(** A sheet is a table, one dict per row; a workbook lists its sheets by
    name in the order they were written. *)
Definition Sheet := list dict.
Definition Workbook := list (string * Sheet).

(** The attributes of a [CVScreener] object. *)
Record CVScreener := {
  role_data : RoleData;
  results : list dict;
  processed_count : nat;
  total_count : nat;
  current_status : string
}.

(** What sits directly inside a directory. *)
Inductive kind := KFile | KDir.

(** The world a batch runs in: the screener object, the [temp] directory
    (absent, or its direct children), the files under [results], and the
    logs of the external calls made so far. *)
Record World := {
  self : CVScreener;
  temp : option (gmap string kind);
  disk : gmap string Workbook;
  api_calls : nat;
  sleeps : list nat;
  clock_reads : nat
}.

(** The external collaborators. Calls to the chat service and to the
    clock are numbered: the [n]-th call gets the [n]-th answer, so the
    service may answer differently each time. *)
Record Env := {
  zip_open : bytes -> res (list ZipEntry);
  magic_from_file : bytes -> res string;
  fitz_render : string -> res (list bytes);
  chat_create : nat -> res Response;
  json_loads : option string -> res json;
  excel_write : string -> Workbook -> res unit;
  datetime_now : nat -> datetime;
  http_exception_str : nat -> string -> string
}.

Definition set_self (f : CVScreener -> CVScreener) (w : World) : World :=
  {| self := f (self w); temp := temp w; disk := disk w;
     api_calls := api_calls w; sleeps := sleeps w;
     clock_reads := clock_reads w |}.

Definition set_temp (t : option (gmap string kind)) (w : World) : World :=
  {| self := self w; temp := t; disk := disk w;
     api_calls := api_calls w; sleeps := sleeps w;
     clock_reads := clock_reads w |}.

Definition set_disk (d : gmap string Workbook) (w : World) : World :=
  {| self := self w; temp := temp w; disk := d;
     api_calls := api_calls w; sleeps := sleeps w;
     clock_reads := clock_reads w |}.

Definition set_results (r : list dict) (s : CVScreener) : CVScreener :=
  {| role_data := role_data s; results := r;
     processed_count := processed_count s; total_count := total_count s;
     current_status := current_status s |}.

Definition set_processed_count (n : nat) (s : CVScreener) : CVScreener :=
  {| role_data := role_data s; results := results s;
     processed_count := n; total_count := total_count s;
     current_status := current_status s |}.

Definition set_total_count (n : nat) (s : CVScreener) : CVScreener :=
  {| role_data := role_data s; results := results s;
     processed_count := processed_count s; total_count := n;
     current_status := current_status s |}.

Definition set_current_status (t : string) (s : CVScreener) : CVScreener :=
  {| role_data := role_data s; results := results s;
     processed_count := processed_count s; total_count := total_count s;
     current_status := t |}.

(* ===================================================================== *)
(** ** api_client.py                                                     *)
(* ===================================================================== *)

(** [await self.portkey_client.chat.completions.create(...)]: the next
    answer of the service. The payload (prompt, images, model parameters)
    has no influence on the client's control flow. *)
Definition chat_completions_create (env : Env) : M World Response :=
  step (fun w =>
    (chat_create env (api_calls w),
     {| self := self w; temp := temp w; disk := disk w;
        api_calls := S (api_calls w); sleeps := sleeps w;
        clock_reads := clock_reads w |})).

(** [await asyncio.sleep(d)]: the wait is logged. *)
Definition asyncio_sleep (d : nat) : M World unit :=
  modify (fun w =>
    {| self := self w; temp := temp w; disk := disk w;
       api_calls := api_calls w; sleeps := sleeps w ++ [d];
       clock_reads := clock_reads w |}).

(** One iteration of the loop of [_call_gemini_api]: [Some response] when
    the function returns from inside the [try], [None] when the loop goes
    on to the next attempt. *)
Definition attempt_once (env : Env) (max_retries retry_delay attempt : nat)
  : M World (option Response) :=
  try_except
    (response <- chat_completions_create env ;; ret (Some response))
    (fun e =>
       if (attempt =? max_retries - 1)%nat then raise e
       else asyncio_sleep (retry_delay * 2 ^ attempt) ;;; ret None).

(** [for attempt in attempts: ...]; a loop that runs out of attempts
    falls off the end of the function, which returns Python's [None]. *)
Fixpoint attempts_loop (env : Env) (max_retries retry_delay : nat)
    (attempts : list nat) : M World (option Response) :=
  match attempts with
  | [] => ret None
  | attempt :: rest =>
      r <- attempt_once env max_retries retry_delay attempt ;;
      match r with
      | Some response => ret (Some response)
      | None => attempts_loop env max_retries retry_delay rest
      end
  end.

Definition max_retries : nat := 3.
Definition retry_delay : nat := 1.

Definition _call_gemini_api (env : Env) : M World (option Response) :=
  attempts_loop env max_retries retry_delay (seq 0 max_retries).

Definition required_fields : list string :=
  [ "full_name"; "email"; "education";
    "experience"; "skills"; "required_skills_match";
    "preferred_skills_match"; "recommendation";
    "justification" ].

(** Python's [field in result] on a decoded JSON value: key lookup on a
    dict, element comparison on a list, substring test on a str, and a
    [TypeError] on anything else. *)
Definition py_in (field : string) (result : json) : res bool :=
  match result with
  | JObj members => Return (dict_in field members)
  | JArr items =>
      Return (existsb (fun x => match x with
                                | JStr s => String.eqb s field
                                | _ => false
                                end) items)
  | JStr s => Return (str_contains field s)
  | _ => Raise (TypeError "argument is not iterable")
  end.

(** [for field in fields: if field not in result: raise ValueError(...)]. *)
Fixpoint check_fields (fields : list string) (result : json) : res unit :=
  match fields with
  | [] => Return tt
  | field :: rest =>
      match py_in field result with
      | Raise e => Raise e
      | Return false =>
          Raise (ValueError ("Missing required field: " +:+ field))
      | Return true => check_fields rest result
      end
  end.

(** [response.choices[0].message.content]; [response] is [None] when
    [_call_gemini_api] fell off its loop. *)
Definition response_content (response : option Response)
  : res (option string) :=
  match response with
  | None => Raise (Exn "AttributeError"
                     "'NoneType' object has no attribute 'choices'")
  | Some r =>
      match choices r with
      | [] => Raise (IndexError "list index out of range")
      | content :: _ => Return content
      end
  end.

Definition _parse_response (env : Env) (response : option Response)
  : res json :=
  let body :=
    match response_content response with
    | Raise e => Raise e
    | Return content =>
        match json_loads env content with
        | Raise e => Raise e
        | Return result =>
            match check_fields required_fields result with
            | Raise e => Raise e
            | Return _ => Return result
            end
        end
    end in
  match body with
  | Return result => Return result
  | Raise e => Raise (ValueError ("Failed to parse API response: " +:+ str e))
  end.

(** [analyze_cv]: the handler prints and re-raises, so errors pass
    through unchanged. *)
Definition analyze_cv (env : Env) : M World json :=
  try_except
    (response <- _call_gemini_api env ;;
     lift (_parse_response env response))
    (fun e => raise e).

(* ===================================================================== *)
(** ** cv_screener.py                                                    *)
(* ===================================================================== *)

Definition temp_dir : string := "temp".

(** *** The file-system calls on the [temp] directory

    The model keeps the direct children of [temp]: a flat member [a.pdf]
    is a file there, a nested member [d/a.pdf] makes [d] a directory.
    Member names are relative paths, as archivers write them. *)

(** [os.makedirs(temp_dir, exist_ok=True)]. *)
Definition os_makedirs : M World unit :=
  modify (fun w =>
    match temp w with
    | None => set_temp (Some ∅) w
    | Some _ => w
    end).

(** [zf.extract(file, extract_path)]. *)
Definition zf_extract (file : string) : M World unit :=
  modify (fun w =>
    set_temp
      (Some (<[top_component file := if has_slash file then KDir else KFile]>
               (default ∅ (temp w)))) w).

(** The text of an [OSError] about a path under [temp]. *)
Definition os_error_text (errno : string) (file : string) : string :=
  errno +:+ ": '" +:+ path_join temp_dir file +:+ "'".

(** [os.remove(os.path.join(temp_dir, file))]: unlinking a directory is
    an error; unlinking a file below a sub-directory leaves the
    sub-directory in place. *)
Definition os_remove (file : string) : M World unit :=
  step (fun w =>
    match temp w with
    | None =>
        (Raise (FileNotFoundError
                  (os_error_text "[Errno 2] No such file or directory" file)),
         w)
    | Some m =>
        match m !! top_component file with
        | None =>
            (Raise (FileNotFoundError
                      (os_error_text "[Errno 2] No such file or directory"
                                     file)), w)
        | Some KDir =>
            if has_slash file then (Return tt, w)
            else (Raise (IsADirectoryError
                           (os_error_text "[Errno 21] Is a directory" file)),
                  w)
        | Some KFile =>
            if has_slash file
            then (Raise (Exn "NotADirectoryError"
                           (os_error_text "[Errno 20] Not a directory" file)),
                  w)
            else (Return tt, set_temp (Some (delete file m)) w)
        end
    end).

(** [os.listdir(temp_dir)]. *)
Definition os_listdir (w : World) : list string :=
  match temp w with
  | None => []
  | Some m => (map_to_list m).*1
  end.

(** [os.rmdir(temp_dir)]. *)
Definition os_rmdir : M World unit :=
  step (fun w =>
    match temp w with
    | None =>
        (Raise (FileNotFoundError
                  "[Errno 2] No such file or directory: 'temp'"), w)
    | Some m =>
        if bool_decide (m = ∅) then (Return tt, set_temp None w)
        else (Raise (OSError "[Errno 39] Directory not empty: 'temp'"), w)
    end).

(** The bytes [zf.extract] writes for a name: those of the last member
    carrying it. *)
Definition zf_read (members : list ZipEntry) (file : string) : bytes :=
  fold_left (fun acc e => if String.eqb (name e) file then data e else acc)
            members [].

(** *** The methods of [CVScreener] *)

(** [_is_valid_pdf], applied to the bytes that sit at [file_path]. *)
Definition _is_valid_pdf (env : Env) (content : bytes) : bool :=
  match magic_from_file env content with
  | Return file_type => String.eqb file_type "application/pdf"
  | Raise _ => false
  end.

(** The loop of [_extract_zip] over [zf.namelist()]. *)
Fixpoint extract_members (env : Env) (zf : list ZipEntry)
    (namelist : list string) (pdf_files : list string)
  : M World (list string) :=
  match namelist with
  | [] => ret pdf_files
  | file :: rest =>
      if negb (endswith (lower file) ".pdf") then
        extract_members env zf rest pdf_files
      else
        zf_extract file ;;;
        let pdf_path := path_join temp_dir file in
        if _is_valid_pdf env (zf_read zf file) then
          extract_members env zf rest (pdf_files ++ [pdf_path])
        else
          os_remove file ;;;
          extract_members env zf rest pdf_files
  end.

Definition _extract_zip (env : Env) (zip_file : bytes)
  : M World (list string) :=
  zf <- lift (zip_open env zip_file) ;;
  extract_members env zf (map name zf) [].

Definition _pdf_to_images (env : Env) (pdf_path : string)
  : res (list bytes) :=
  match fitz_render env pdf_path with
  | Return images => Return images
  | Raise e =>
      Raise (ValueError ("Failed to convert PDF to images: " +:+ str e))
  end.

(** [{"filename": ..., **analysis}]: unpacking needs a mapping. *)
Definition success_row (filename : string) (analysis : json) : res dict :=
  match analysis with
  | JObj members => Return (dict_merge [("filename", JStr filename)] members)
  | _ => Raise (TypeError "argument after ** must be a mapping")
  end.

Definition failure_row (filename error : string) : dict :=
  [("filename", JStr filename); ("error", JStr error)].

Definition results_append (row : dict) : M World unit :=
  modify (set_self (fun s => set_results (results s ++ [row]) s)).

Definition _process_single_cv (env : Env) (pdf_path : string)
  : M World unit :=
  modify (set_self (set_current_status ("Processing " +:+ basename pdf_path))) ;;;
  images <- lift (_pdf_to_images env pdf_path) ;;
  analysis <- analyze_cv env ;;
  row <- lift (success_row (basename pdf_path) analysis) ;;
  results_append row.

Definition strftime_generated_at (t : datetime) : string :=
  pad4 (year t) +:+ "-" +:+ pad2 (month t) +:+ "-" +:+ pad2 (day t) +:+ " "
  +:+ pad2 (hour t) +:+ ":" +:+ pad2 (minute t) +:+ ":" +:+ pad2 (second t).

Definition strftime_timestamp (t : datetime) : string :=
  pad4 (year t) +:+ pad2 (month t) +:+ pad2 (day t) +:+ "_"
  +:+ pad2 (hour t) +:+ pad2 (minute t) +:+ pad2 (second t).

(** [datetime.now()]: the next reading of the clock. *)
Definition now (env : Env) : M World datetime :=
  step (fun w =>
    (Return (datetime_now env (clock_reads w)),
     {| self := self w; temp := temp w; disk := disk w;
        api_calls := api_calls w; sleeps := sleeps w;
        clock_reads := S (clock_reads w) |})).

Definition report_metadata (s : CVScreener) (generated_at : datetime) : dict :=
  [ ("Position", JStr (position (role_data s)));
    ("Required Skills",
      JStr (join ", " (requirements_must_have (role_data s))));
    ("Preferred Skills",
      JStr (join ", " (requirements_nice_to_have (role_data s))));
    ("Generated At", JStr (strftime_generated_at generated_at));
    ("Total CVs Processed", JInt (Z.of_nat (length (results s)))) ].

Definition report_path (t : datetime) : string :=
  "results/cv_analysis_" +:+ strftime_timestamp t +:+ ".xlsx".

Definition report_workbook (metadata : dict) (df : list dict) : Workbook :=
  [ ("Metadata", [metadata]); ("Analysis Results", df) ].

(** Leaving the [with pd.ExcelWriter(...)] block saves the workbook;
    a failed save leaves the disk as it was. *)
Definition excel_save (env : Env) (output_path : string) (wb : Workbook)
  : M World unit :=
  step (fun w =>
    match excel_write env output_path wb with
    | Return _ => (Return tt, set_disk (<[output_path := wb]> (disk w)) w)
    | Raise e => (Raise e, w)
    end).

Definition _generate_excel_report (env : Env) : M World string :=
  try_except
    (df <- gets (fun w => results (self w)) ;;
     generated_at <- now env ;;
     metadata <- gets (fun w => report_metadata (self w) generated_at) ;;
     timestamp <- now env ;;
     let output_path := report_path timestamp in
     excel_save env output_path (report_workbook metadata df) ;;;
     ret output_path)
    (fun e =>
       raise (ValueError ("Failed to generate Excel report: " +:+ str e))).

(** The [finally] block of [process_zip]. *)
Definition cleanup : M World unit :=
  present <- gets (fun w => bool_decide (is_Some (temp w))) ;;
  if (present : bool) then
    listing <- gets os_listdir ;;
    for_each listing os_remove ;;;
    os_rmdir
  else ret tt.

(** The body of the loop of [process_zip] for one document. *)
Definition process_document (env : Env) (pdf_path : string) : M World unit :=
  try_finally
    (try_except
       (_process_single_cv env pdf_path)
       (fun e => results_append (failure_row (basename pdf_path) (str e))))
    (modify (set_self (fun s =>
       set_processed_count (processed_count s + 1) s))).

Definition process_zip (env : Env) (zip_file : bytes) : M World string :=
  try_finally
    (modify (set_self (set_processed_count 0)) ;;;
     modify (set_self (set_results [])) ;;;
     os_makedirs ;;;
     pdf_files <- _extract_zip env zip_file ;;
     modify (set_self (set_total_count (length pdf_files))) ;;;
     for_each pdf_files (process_document env) ;;;
     _generate_excel_report env)
    cleanup.

(** [percentage] is a Python number: the int [0], or the float
    [processed / total * 100], kept here as the two counts. *)
Inductive Percentage :=
| PctZero
| PctOf (processed total : nat).

Record Progress := {
  processed : nat;
  total : nat;
  progress_status : string;
  percentage : Percentage
}.

Definition get_progress (s : CVScreener) : Progress :=
  {| processed := processed_count s;
     total := total_count s;
     progress_status := current_status s;
     percentage :=
       if (0 <? total_count s)%nat
       then PctOf (processed_count s) (total_count s)
       else PctZero |}.

(** [CVScreener(role_data)]. *)
Definition CVScreener_init (rd : RoleData) : CVScreener :=
  {| role_data := rd; results := []; processed_count := 0;
     total_count := 0; current_status := "Initializing" |}.

(* ===================================================================== *)
(** ** main.py                                                           *)
(* ===================================================================== *)

(** The request body model [JobRole]. *)
Record JobRole := {
  role_position : string;
  must_have : list string;
  nice_to_have : list string
}.

(** One value of the [tasks] dict. *)
Record Task := {
  status : string;
  progress : Progress;
  result_path : option string;
  error : option string
}.

(** The response model [TaskStatus]. *)
Record TaskStatus := {
  ts_task_id : string;
  ts_status : string;
  ts_progress : Progress;
  ts_result_path : option string;
  ts_error : option string
}.

Record FileResponse := {
  fr_path : string;
  fr_media_type : string;
  fr_filename : string
}.

(** What a request handler gives back: a response, or an
    [HTTPException]. *)
Inductive http (A : Type) : Type :=
| Respond (a : A)
| HTTPException (status_code : nat) (detail : string).
Arguments Respond {A} a.
Arguments HTTPException {A} status_code detail.

(** The process: the module-level [tasks] dict and the world. *)
Record Server := {
  tasks : gmap string Task;
  world : World
}.

(** Code of [cv_screener.py] run from [main.py]: it has no access to
    [tasks]. *)
Definition in_world {A} (m : M World A) : M Server A :=
  fun s =>
    let r := m (world s) in
    Run (outcome r)
        {| tasks := tasks s; world := final r |}
        (map (fun w => {| tasks := tasks s; world := w |}) (visited r)).

Definition initial_progress : Progress :=
  {| processed := 0; total := 0;
     progress_status := "Initializing"; percentage := PctZero |}.

Definition initial_task : Task :=
  {| status := "PROCESSING"; progress := initial_progress;
     result_path := None; error := None |}.

(** [screen_cvs], up to the scheduling of the background task:
    [filename] is [zip_file.filename] and [task_id] the fresh uuid. The
    [except Exception] clause also catches the 400 raised inside the
    [try] and turns it into a 500 carrying [str] of that exception,
    which the web framework defines. *)
Definition screen_cvs (env : Env) (filename task_id : string) (s : Server)
  : http string * Server :=
  if negb (endswith (lower filename) ".zip") then
    (HTTPException 500
       (http_exception_str env 400 "Only ZIP files are accepted"), s)
  else
    (Respond task_id,
     {| tasks := <[task_id := initial_task]> (tasks s); world := world s |}).

(** [tasks[task_id].update(...)]: a [KeyError] when the id is absent. *)
Definition tasks_update (task_id : string) (f : Task -> Task)
  : M Server unit :=
  step (fun s =>
    match tasks s !! task_id with
    | None => (Raise (Exn "KeyError" task_id), s)
    | Some t =>
        (Return tt,
         {| tasks := <[task_id := f t]> (tasks s); world := world s |})
    end).

Definition role_data_of (role : JobRole) : RoleData :=
  {| position := role_position role;
     requirements_must_have := must_have role;
     requirements_nice_to_have := nice_to_have role |}.

Definition process_cvs_task (env : Env) (task_id : string)
    (zip_content : bytes) (role : JobRole) : M Server unit :=
  try_except
    (in_world (modify (set_self (fun _ =>
       CVScreener_init (role_data_of role)))) ;;;
     path <- in_world (process_zip env zip_content) ;;
     current <- gets (fun s => get_progress (self (world s))) ;;
     tasks_update task_id (fun t =>
       {| status := "COMPLETED"; progress := current;
          result_path := Some path; error := error t |}))
    (fun e =>
       tasks_update task_id (fun t =>
         {| status := "FAILED"; progress := progress t;
            result_path := result_path t; error := Some (str e) |})).

Definition get_task_status (s : Server) (task_id : string)
  : http TaskStatus :=
  match tasks s !! task_id with
  | None => HTTPException 404 "Task not found"
  | Some task =>
      Respond {| ts_task_id := task_id;
                 ts_status := status task;
                 ts_progress := progress task;
                 ts_result_path := result_path task;
                 ts_error := error task |}
  end.

(** [os.path.exists] on a path under [results]. *)
Definition os_path_exists (w : World) (path : string) : bool :=
  bool_decide (is_Some (disk w !! path)).

(** Python truthiness of an optional string. *)
Definition truthy (o : option string) : bool :=
  match o with
  | None => false
  | Some s => negb (String.eqb s "")
  end.

Definition xlsx_media_type : string :=
  "application/vnd.openxmlformats-officedocument.spreadsheetml.sheet".

Definition download_result (s : Server) (task_id : string)
  : http FileResponse :=
  match tasks s !! task_id with
  | None => HTTPException 404 "Task not found"
  | Some task =>
      if negb (String.eqb (status task) "COMPLETED") then
        HTTPException 400 "Task not completed"
      else
        match result_path task with
        | Some path =>
            if negb (truthy (result_path task))
               || negb (os_path_exists (world s) path)
            then HTTPException 404 "Result file not found"
            else Respond {| fr_path := path;
                            fr_media_type := xlsx_media_type;
                            fr_filename := basename path |}
        | None => HTTPException 404 "Result file not found"
        end
  end.

(* ===================================================================== *)
(** ** Scripted environments for concrete runs                           *)
(* ===================================================================== *)

Definition quiet_env : Env :=
  {| zip_open := fun _ => Return [];
     magic_from_file := fun _ => Return "application/pdf";
     fitz_render := fun _ => Return [];
     chat_create := fun _ => Raise (Exn "APIError" "service unavailable");
     json_loads := fun _ => Raise (Exn "JSONDecodeError" "Expecting value");
     excel_write := fun _ _ => Return tt;
     datetime_now := fun _ =>
       {| year := 2024; month := 3; day := 9;
          hour := 14; minute := 5; second := 7; microsecond := 0 |};
     http_exception_str := fun _ detail => detail |}.

Definition with_chat (f : nat -> res Response) (env : Env) : Env :=
  {| zip_open := zip_open env; magic_from_file := magic_from_file env;
     fitz_render := fitz_render env; chat_create := f;
     json_loads := json_loads env; excel_write := excel_write env;
     datetime_now := datetime_now env;
     http_exception_str := http_exception_str env |}.

Definition with_json (f : option string -> res json) (env : Env) : Env :=
  {| zip_open := zip_open env; magic_from_file := magic_from_file env;
     fitz_render := fitz_render env; chat_create := chat_create env;
     json_loads := f; excel_write := excel_write env;
     datetime_now := datetime_now env;
     http_exception_str := http_exception_str env |}.

Definition with_zip (f : bytes -> res (list ZipEntry)) (env : Env) : Env :=
  {| zip_open := f; magic_from_file := magic_from_file env;
     fitz_render := fitz_render env; chat_create := chat_create env;
     json_loads := json_loads env; excel_write := excel_write env;
     datetime_now := datetime_now env;
     http_exception_str := http_exception_str env |}.

Definition with_render (f : string -> res (list bytes)) (env : Env) : Env :=
  {| zip_open := zip_open env; magic_from_file := magic_from_file env;
     fitz_render := f; chat_create := chat_create env;
     json_loads := json_loads env; excel_write := excel_write env;
     datetime_now := datetime_now env;
     http_exception_str := http_exception_str env |}.

Definition with_excel (f : string -> Workbook -> res unit) (env : Env) : Env :=
  {| zip_open := zip_open env; magic_from_file := magic_from_file env;
     fitz_render := fitz_render env; chat_create := chat_create env;
     json_loads := json_loads env; excel_write := f;
     datetime_now := datetime_now env;
     http_exception_str := http_exception_str env |}.

Definition no_role : RoleData :=
  {| position := "Engineer"; requirements_must_have := ["Python"];
     requirements_nice_to_have := ["SQL"] |}.

(** A process that has just started: no [temp] directory, no report. *)
Definition fresh_world : World :=
  {| self := CVScreener_init no_role; temp := None; disk := ∅;
     api_calls := 0; sleeps := []; clock_reads := 0 |}.

(** Two refusals, then an answer. *)
Definition third_time_lucky (answer : Response) : nat -> res Response :=
  fun k =>
    match k with
    | 0 => Raise (Exn "APIError" "rate limited")
    | 1 => Raise (Exn "APIError" "timeout")
    | _ => Return answer
    end.

Definition some_answer : Response := {| choices := [Some "{}"] |}.

(** A decoded array that lists the nine field names as its elements. *)
Definition names_array : json := JArr (map JStr required_fields).

(** The JSON text of that array. *)
Definition quoted (s : string) : string :=
  String (ascii_of_nat 34) s +:+ String (ascii_of_nat 34) EmptyString.

Definition names_text : string :=
  "[" +:+ join ", " (map quoted required_fields) +:+ "]".

(** A decoder that knows this one text. *)
Definition decode_names_array : option string -> res json :=
  fun content =>
    match content with
    | Some text =>
        if String.eqb text names_text then Return names_array
        else Raise (Exn "JSONDecodeError" "Expecting value")
    | None => Raise (TypeError "the JSON object must be str, bytes or bytearray")
    end.

(** A complete answer whose values have assorted types. *)
Definition loose_members : dict :=
  [ ("full_name", JInt 7); ("email", JNull); ("education", JArr []);
    ("experience", JStr "ten years"); ("skills", JBool true);
    ("required_skills_match", JStr "high");
    ("preferred_skills_match", JFloat "12.5");
    ("recommendation", JInt 0); ("justification", JObj []) ].

(** A finished task whose report is on disk, one whose report was
    deleted, and one still running. *)
Definition report_name : string := "results/cv_analysis_20240309_140507.xlsx".

Definition completed_task : Task :=
  {| status := "COMPLETED";
     progress := {| processed := 2; total := 2;
                    progress_status := "Processing b.pdf";
                    percentage := PctOf 2 2 |};
     result_path := Some report_name; error := None |}.

Definition world_with_report : World :=
  set_disk {[ report_name := report_workbook [] [] ]} fresh_world.

Definition server_done : Server :=
  {| tasks := {[ "t-done" := completed_task ]}; world := world_with_report |}.

Definition server_lost : Server :=
  {| tasks := {[ "t-done" := completed_task ]}; world := fresh_world |}.

Definition server_busy : Server :=
  {| tasks := {[ "t-busy" := initial_task ]}; world := fresh_world |}.

(* ===================================================================== *)
(** ** Vocabulary for statements about runs                              *)
(* ===================================================================== *)

(** Every state of every run of [m] is related to the state the run
    started from. *)
Definition preserves {S A} (R : S -> S -> Prop) (m : M S A) : Prop :=
  forall s, Forall (R s) (visited (m s)) /\ R s (final (m s)).

(** The later state agrees with the earlier one on [f]. *)
Definition same {S X} (f : S -> X) : S -> S -> Prop :=
  fun s s' => f s' = f s.

(** What the calls to the service and the waits leave alone. *)
Definition outside_api (w : World) :=
  (self w, temp w, disk w, clock_reads w).

(** What the processing of one document leaves alone. *)
Definition outside_document (w : World) :=
  (role_data (self w), total_count (self w), temp w, disk w, clock_reads w).

(** What the [temp] directory calls leave alone. *)
Definition outside_temp (w : World) :=
  (self w, disk w, api_calls w, sleeps w, clock_reads w).

(** What report generation leaves alone. *)
Definition outside_report (w : World) :=
  (self w, temp w, api_calls w, sleeps w).

(** What one call of [_process_single_cv] leaves alone. *)
Definition outside_single (w : World) :=
  (role_data (self w), total_count (self w), processed_count (self w),
   temp w, disk w, clock_reads w).

(** The row the loop of [process_zip] records for a document whose
    processing starts in state [w]. *)
Definition row_of_document (env : Env) (pdf_path : string) (w : World)
  : option dict :=
  match outcome (_process_single_cv env pdf_path w) with
  | Raise e => Some (failure_row (basename pdf_path) (str e))
  | Return _ => last (results (self (final (_process_single_cv env pdf_path w))))
  end.

(** The members [_extract_zip] keeps. *)
Definition accepted (env : Env) (zf : list ZipEntry) (file : string) : bool :=
  endswith (lower file) ".pdf" && _is_valid_pdf env (zf_read zf file).

Definition validated (env : Env) (zf : list ZipEntry) : list string :=
  map (path_join temp_dir) (filter (fun f => accepted env zf f = true)
                                   (map name zf)).

(** The statements of [process_zip] up to the end of extraction. *)
Definition extraction_phase (env : Env) (zip_file : bytes)
  : M World (list string) :=
  modify (set_self (set_processed_count 0)) ;;;
  modify (set_self (set_results [])) ;;;
  os_makedirs ;;;
  _extract_zip env zip_file.

(** The statements of [process_zip] that follow extraction. *)
Definition after_extraction (env : Env) (pdf_files : list string)
  : M World string :=
  modify (set_self (set_total_count (length pdf_files))) ;;;
  for_each pdf_files (process_document env) ;;;
  _generate_excel_report env.

(** The [temp] directory is absent, or holds nothing but plain files. *)
Definition tidy (t : option (gmap string kind)) : Prop :=
  match t with
  | None => True
  | Some m => map_Forall (fun n k => k = KFile /\ has_slash n = false) m
  end.

(** No document of the archive sits in a sub-directory. *)
Definition flat_names (namelist : list string) : Prop :=
  Forall (fun f => endswith (lower f) ".pdf" = true -> has_slash f = false)
         namelist.

(** The screener as the first two statements of [process_zip] leave it. *)
Definition reset (s : CVScreener) : CVScreener :=
  set_results [] (set_processed_count 0 s).

(** The scenario of the specification: two documents and one text file
    (plus a text file named like a document); the second document cannot
    be rendered. *)
Definition pdf_content : bytes :=
  [Byte.x25; Byte.x50; Byte.x44; Byte.x46].

Definition text_content : bytes := [Byte.x68; Byte.x69].

Definition scenario_archive : list ZipEntry :=
  [ {| name := "a.pdf"; data := pdf_content |};
    {| name := "notes.txt"; data := text_content |};
    {| name := "B.PDF"; data := pdf_content |};
    {| name := "fake.pdf"; data := text_content |} ].

Definition sniff (content : bytes) : res string :=
  match content with
  | Byte.x25 :: _ => Return "application/pdf"
  | _ => Return "text/plain"
  end.

Definition scenario_env : Env :=
  {| zip_open := fun _ => Return scenario_archive;
     magic_from_file := sniff;
     fitz_render := fun path =>
       if String.eqb path "temp/B.PDF"
       then Raise (Exn "FileDataError" "cannot open broken document")
       else Return [[]];
     chat_create := fun _ => Return some_answer;
     json_loads := fun _ => Return (JObj loose_members);
     excel_write := fun _ _ => Return tt;
     datetime_now := datetime_now quiet_env;
     http_exception_str := http_exception_str quiet_env |}.


(** The world in which [process_cvs_task] calls [process_zip]: the
    screener object has just been created. *)
Definition batch_world (role : JobRole) (w : World) : World :=
  set_self (fun _ => CVScreener_init (role_data_of role)) w.

Definition in_registry (t : gmap string Task) (w : World) : Server :=
  {| tasks := t; world := w |}.

(** What [process_cvs_task] writes to the registry when it ends. *)
Definition completed (s : CVScreener) (path : string) (t : Task) : Task :=
  {| status := "COMPLETED"; progress := get_progress s;
     result_path := Some path; error := error t |}.

Definition failed (e : exn) (t : Task) : Task :=
  {| status := "FAILED"; progress := progress t;
     result_path := result_path t; error := Some (str e) |}.

(** An archive that cannot be opened. *)
Definition corrupt_env : Env :=
  with_zip (fun _ => Raise (Exn "BadZipFile" "File is not a zip file"))
           quiet_env.

Definition some_role : JobRole :=
  {| role_position := "Engineer"; must_have := ["Python"];
     nice_to_have := ["SQL"] |}.

(** A server on which one batch has just been submitted. *)
Definition empty_server : Server := {| tasks := ∅; world := fresh_world |}.

Definition server_submitted : Server :=
  (screen_cvs quiet_env "cvs.zip" "t1" empty_server).2.

(** What [get_task_status] answers for a task that was registered and
    not touched since. *)
Definition untouched_status (task_id : string) : TaskStatus :=
  {| ts_task_id := task_id; ts_status := "PROCESSING";
     ts_progress := initial_progress;
     ts_result_path := None; ts_error := None |}.

(** Two documents that both render: the second one is sent to the
    service while the first one is already counted. *)
Definition two_docs_env : Env :=
  with_zip (fun _ => Return [ {| name := "a.pdf"; data := pdf_content |};
                              {| name := "b.pdf"; data := pdf_content |} ])
    (with_render (fun _ => Return [[]]) scenario_env).

(** An archive made by zipping a folder: its one document sits in a
    sub-directory. *)
Definition folder_env : Env :=
  with_zip (fun _ => Return [ {| name := "cvs/"; data := [] |};
                              {| name := "cvs/a.pdf"; data := pdf_content |} ])
    (with_render (fun _ => Return [[]]) scenario_env).

(** The scenario with a spreadsheet writer that fails. *)
Definition disk_full_env : Env :=
  with_excel (fun _ _ => Raise (OSError "[Errno 28] No space left on device"))
             scenario_env.

(** The ranges Python guarantees for the fields of [datetime.now()]
    (four-digit years). *)
Definition valid_datetime (t : datetime) : Prop :=
  1000 <= year t < 100 * 100 /\ 1 <= month t <= 12 /\ 1 <= day t <= 31
  /\ hour t <= 23 /\ minute t <= 59 /\ second t <= 59
  /\ microsecond t < 1000 * 1000.

(** [YYYYMMDD_HHMMSS]: eight digits, an underscore, six digits. *)
Definition timestamp_shaped (s : string) : bool :=
  (String.length s =? 15)%nat
  && all_digits (substring 0 8 s)
  && String.eqb (substring 8 1 s) "_"
  && all_digits (substring 9 6 s).

(** Two instants of the same calendar second. *)
Definition same_second (a b : datetime) : Prop :=
  year a = year b /\ month a = month b /\ day a = day b
  /\ hour a = hour b /\ minute a = minute b /\ second a = second b.

(** A clock read several times within one second. *)
Definition racing_clock (n : nat) : datetime :=
  {| year := 2024; month := 3; day := 9;
     hour := 14; minute := 5; second := 7; microsecond := 1000 * n |}.

Definition with_clock (f : nat -> datetime) (env : Env) : Env :=
  {| zip_open := zip_open env; magic_from_file := magic_from_file env;
     fitz_render := fitz_render env; chat_create := chat_create env;
     json_loads := json_loads env; excel_write := excel_write env;
     datetime_now := f;
     http_exception_str := http_exception_str env |}.

(** Two batches submitted together; the first has finished. *)
Definition server_two_tasks : Server :=
  (screen_cvs quiet_env "more.zip" "t2" server_submitted).2.

Definition after_first_batch : Server :=
  final (process_cvs_task (with_clock racing_clock scenario_env)
           "t1" [] some_role server_two_tasks).

Definition after_second_batch : Server :=
  final (process_cvs_task (with_clock racing_clock two_docs_env)
           "t2" [] some_role after_first_batch).

(** A service that answers at once, with text that is not JSON. *)
Definition chatty_env : Env :=
  with_chat (fun _ => Return some_answer) quiet_env.

(** An analysis that carries a "filename" member of its own. *)
Definition spoofed_members : dict :=
  ("filename", JStr "other.pdf") :: loose_members.

(** A disk that holds the report of an earlier batch. *)
Definition old_report_name : string :=
  "results/cv_analysis_20230101_000000.xlsx".

Definition world_with_old_report : World :=
  set_disk {[ old_report_name := report_workbook [] [] ]} fresh_world.

(* ===================================================================== *)
(** * Properties                                                         *)
(* ===================================================================== *)

(* ===================================================================== *)
(** ** The retry loop of the analysis client                             *)
(* ===================================================================== *)

Section Retry.
Context (env : Env) (w : World).


Lemma call_first_success response :
  chat_create env (api_calls w) = Return response ->
  outcome (_call_gemini_api env w) = Return (Some response)
  /\ api_calls (final (_call_gemini_api env w)) = api_calls w + 1 /\ sleeps (final (_call_gemini_api env w)) = sleeps w.
Proof.
  intros H.
  unfold _call_gemini_api, attempts_loop, attempt_once, bind, try_except,
    chat_completions_create, step; simpl.
  rewrite H; simpl. repeat split; lia.
Qed.

Lemma call_second_success e0 response :
  chat_create env (api_calls w) = Raise e0 ->
  chat_create env (S (api_calls w)) = Return response ->
  outcome (_call_gemini_api env w) = Return (Some response)
  /\ api_calls (final (_call_gemini_api env w)) = api_calls w + 2 /\ sleeps (final (_call_gemini_api env w)) = sleeps w ++ [1].
Proof.
  intros H0 H1.
  unfold _call_gemini_api, attempts_loop, attempt_once, bind, try_except,
    chat_completions_create, asyncio_sleep, modify, step; simpl.
  rewrite H0; simpl. rewrite H1; simpl. repeat split; lia.
Qed.

Lemma call_third_success e0 e1 response :
  chat_create env (api_calls w) = Raise e0 ->
  chat_create env (S (api_calls w)) = Raise e1 ->
  chat_create env (S (S (api_calls w))) = Return response ->
  outcome (_call_gemini_api env w) = Return (Some response)
  /\ api_calls (final (_call_gemini_api env w)) = api_calls w + 3
  /\ sleeps (final (_call_gemini_api env w)) = sleeps w ++ [1; 2].
Proof.
  intros H0 H1 H2.
  unfold _call_gemini_api, attempts_loop, attempt_once, bind, try_except,
    chat_completions_create, asyncio_sleep, modify, step; simpl.
  rewrite H0; simpl. rewrite H1; simpl. rewrite H2; simpl.
  rewrite <- app_assoc. repeat split; lia.
Qed.

Lemma call_all_fail e0 e1 e2 :
  chat_create env (api_calls w) = Raise e0 ->
  chat_create env (S (api_calls w)) = Raise e1 ->
  chat_create env (S (S (api_calls w))) = Raise e2 ->
  outcome (_call_gemini_api env w) = Raise e2
  /\ api_calls (final (_call_gemini_api env w)) = api_calls w + 3
  /\ sleeps (final (_call_gemini_api env w)) = sleeps w ++ [1; 2].
Proof.
  intros H0 H1 H2.
  unfold _call_gemini_api, attempts_loop, attempt_once, bind, try_except,
    chat_completions_create, asyncio_sleep, modify, step; simpl.
  rewrite H0; simpl. rewrite H1; simpl. rewrite H2; simpl.
  rewrite <- app_assoc. repeat split; lia.
Qed.

(** The loop never falls off its end, touches nothing but the two
    logs, and never makes a fourth call. *)
Lemma call_shape :
  outcome (_call_gemini_api env w) <> Return None
  /\ api_calls w < api_calls (final (_call_gemini_api env w)) <= api_calls w + 3
  /\ self (final (_call_gemini_api env w)) = self w /\ temp (final (_call_gemini_api env w)) = temp w
  /\ disk (final (_call_gemini_api env w)) = disk w /\ clock_reads (final (_call_gemini_api env w)) = clock_reads w.
Proof.
  unfold _call_gemini_api, attempts_loop, attempt_once, bind, try_except,
    chat_completions_create, asyncio_sleep, modify, step; simpl.
  destruct (chat_create env (api_calls w)); simpl;
    [ repeat split; (congruence || lia) | ].
  destruct (chat_create env (S (api_calls w))); simpl;
    [ repeat split; (congruence || lia) | ].
  destruct (chat_create env (S (S (api_calls w)))); simpl;
    repeat split; (congruence || lia).
Qed.
End Retry.

(** C2. The analysis call makes at most three attempts; it waits
    [retry_delay * 2 ^ 0 = 1] before the second attempt and
    [retry_delay * 2 ^ 1 = 2] before the third; the first attempt that
    succeeds gives the result (two failures followed by a success give
    the third answer); when all three attempts fail, the exception of
    the third is raised as it is. *)
Theorem retry_policy (env : Env) (w : World) :
  api_calls (final (_call_gemini_api env w)) <= api_calls w + 3
  /\ (forall response,
        chat_create env (api_calls w) = Return response ->
        outcome (_call_gemini_api env w) = Return (Some response)
        /\ api_calls (final (_call_gemini_api env w)) = api_calls w + 1
        /\ sleeps (final (_call_gemini_api env w)) = sleeps w)
  /\ (forall e0 response,
        chat_create env (api_calls w) = Raise e0 ->
        chat_create env (S (api_calls w)) = Return response ->
        outcome (_call_gemini_api env w) = Return (Some response)
        /\ api_calls (final (_call_gemini_api env w)) = api_calls w + 2
        /\ sleeps (final (_call_gemini_api env w))
           = sleeps w ++ [retry_delay * 2 ^ 0])
  /\ (forall e0 e1 response,
        chat_create env (api_calls w) = Raise e0 ->
        chat_create env (S (api_calls w)) = Raise e1 ->
        chat_create env (S (S (api_calls w))) = Return response ->
        outcome (_call_gemini_api env w) = Return (Some response)
        /\ api_calls (final (_call_gemini_api env w)) = api_calls w + 3
        /\ sleeps (final (_call_gemini_api env w))
           = sleeps w ++ [retry_delay * 2 ^ 0; retry_delay * 2 ^ 1])
  /\ (forall e0 e1 e2,
        chat_create env (api_calls w) = Raise e0 ->
        chat_create env (S (api_calls w)) = Raise e1 ->
        chat_create env (S (S (api_calls w))) = Raise e2 ->
        outcome (_call_gemini_api env w) = Raise e2
        /\ api_calls (final (_call_gemini_api env w)) = api_calls w + 3
        /\ sleeps (final (_call_gemini_api env w))
           = sleeps w ++ [retry_delay * 2 ^ 0; retry_delay * 2 ^ 1]).
Proof.
  split; [ pose proof (call_shape env w); lia | ].
  split; [ intros; by apply call_first_success | ].
  split; [ intros; by eapply call_second_success | ].
  split; intros.
  - by eapply call_third_success.
  - by eapply call_all_fail.
Qed.

(** Two failures, then the third attempt's answer, after waits 1 and 2. *)
Lemma retry_policy_witness :
  outcome (_call_gemini_api
             (with_chat (third_time_lucky some_answer) quiet_env) fresh_world)
  = Return (Some some_answer)
  /\ sleeps (final (_call_gemini_api
                     (with_chat (third_time_lucky some_answer) quiet_env)
                     fresh_world)) = [1; 2].
Proof.
  destruct (retry_policy (with_chat (third_time_lucky some_answer) quiet_env)
              fresh_world) as (_ & _ & _ & H & _).
  destruct (H (Exn "APIError" "rate limited") (Exn "APIError" "timeout")
              some_answer eq_refl eq_refl eq_refl) as (Ho & _ & Hs).
  split; [ exact Ho | exact Hs ].
Defined.

(* ===================================================================== *)
(** ** Response validation                                               *)
(* ===================================================================== *)

Lemma check_fields_object fields members :
  check_fields fields (JObj members) = Return tt
  <-> forallb (fun f => dict_in f members) fields = true.
Proof.
  induction fields as [|f fields IH]; simpl; [ tauto | ].
  destruct (dict_in f members); simpl; [ exact IH | ].
  split; discriminate.
Qed.

Lemma check_fields_object_missing fields members :
  forallb (fun f => dict_in f members) fields = false ->
  exists f, In f fields /\ dict_in f members = false
    /\ check_fields fields (JObj members)
       = Raise (ValueError ("Missing required field: " +:+ f)).
Proof.
  induction fields as [|f fields IH]; simpl; [ discriminate | ].
  destruct (dict_in f members) eqn:Hf; simpl.
  - intros H. destruct (IH H) as (g & Hin & Hg & Hc). eauto.
  - intros _. exists f. auto.
Qed.

(** A decoded object holding the nine keys is returned as it is, whatever
    the types of its values. *)
Lemma parse_object_complete env content others members :
  json_loads env content = Return (JObj members) ->
  forallb (fun f => dict_in f members) required_fields = true ->
  _parse_response env (Some {| choices := content :: others |})
  = Return (JObj members).
Proof.
  intros Hj Hall. unfold _parse_response, response_content; cbn [choices].
  rewrite Hj. apply check_fields_object in Hall. by rewrite Hall.
Qed.

(** A decoded object lacking one of the nine keys is refused, and the
    message names the first key that is missing. *)
Lemma parse_object_missing env content others members :
  json_loads env content = Return (JObj members) ->
  forallb (fun f => dict_in f members) required_fields = false ->
  exists f, In f required_fields /\ dict_in f members = false
    /\ _parse_response env (Some {| choices := content :: others |})
       = Raise (ValueError ("Failed to parse API response: "
                            +:+ "Missing required field: " +:+ f)).
Proof.
  intros Hj Hmiss.
  destruct (check_fields_object_missing _ _ Hmiss) as (f & Hin & Hf & Hc).
  exists f. repeat split; try done.
  unfold _parse_response, response_content; cbn [choices]. rewrite Hj, Hc. done.
Qed.

(** Text that does not decode is refused. *)
Lemma parse_invalid_json env content others e :
  json_loads env content = Raise e ->
  _parse_response env (Some {| choices := content :: others |})
  = Raise (ValueError ("Failed to parse API response: " +:+ str e)).
Proof.
  intros Hj. unfold _parse_response, response_content; cbn [choices]. by rewrite Hj.
Qed.

(** Whatever goes wrong, the caller sees one kind of error. *)
Lemma parse_raises_value_error env response e :
  _parse_response env response = Raise e ->
  exists m, e = ValueError ("Failed to parse API response: " +:+ m).
Proof.
  unfold _parse_response.
  destruct (response_content response) as [content|e1]; [ | intros [= <-]; eauto ].
  destruct (json_loads env content) as [j|e2]; [ | intros [= <-]; eauto ].
  destruct (check_fields required_fields j) as [u|e3]; [ discriminate | ].
  intros [= <-]; eauto.
Qed.

Example parse_loose_values :
  _parse_response (with_json (fun _ => Return (JObj loose_members)) quiet_env)
                  (Some some_answer)
  = Return (JObj loose_members).
Proof. reflexivity. Qed.

(** C3. At the response text [names_text], a JSON array whose elements
    are the nine field names, the membership test of the validation loop
    compares elements instead of keys: the array is returned as a valid
    analysis although it holds no field at all. *)
Theorem parse_accepts_array_of_names :
  _parse_response (with_json decode_names_array quiet_env)
                  (Some {| choices := [Some names_text] |})
  = Return names_array
  /\ success_row "cv.pdf" names_array
     = Raise (TypeError "argument after ** must be a mapping").
Proof. split; reflexivity. Qed.

(* ===================================================================== *)
(** ** The request handlers                                              *)
(* ===================================================================== *)

(** C7. [get_task_status] answers 404 (not found) for an unknown id;
    [download_result] answers 404 for an unknown id, 400 (invalid state)
    when the task is not COMPLETED, 404 when the task is COMPLETED but
    its report is not on disk, and otherwise returns the report file. *)
Theorem handlers_error_codes (s : Server) (task_id : string) :
  (tasks s !! task_id = None ->
     get_task_status s task_id = HTTPException 404 "Task not found"
     /\ download_result s task_id = HTTPException 404 "Task not found")
  /\ (forall t, tasks s !! task_id = Some t ->
        status t <> "COMPLETED" ->
        download_result s task_id = HTTPException 400 "Task not completed")
  /\ (forall t path, tasks s !! task_id = Some t ->
        status t = "COMPLETED" ->
        result_path t = Some path ->
        disk (world s) !! path = None ->
        download_result s task_id
        = HTTPException 404 "Result file not found")
  /\ (forall t path wb, tasks s !! task_id = Some t ->
        status t = "COMPLETED" ->
        result_path t = Some path -> path <> "" ->
        disk (world s) !! path = Some wb ->
        download_result s task_id
        = Respond {| fr_path := path; fr_media_type := xlsx_media_type;
                     fr_filename := basename path |}).
Proof.
  unfold get_task_status, download_result, os_path_exists.
  split; [ intros ->; done | ].
  split; [ intros t -> Hne | split ].
  - destruct (String.eqb_spec (status t) "COMPLETED"); [ done | done ].
  - intros t path -> Hst -> Hd. rewrite Hst, Hd. simpl.
    by rewrite orb_true_r.
  - intros t path wb -> Hst -> Hne Hd. rewrite Hst, Hd. simpl.
    by destruct (String.eqb_spec path "").
Qed.

(** The four answers of [download_result], each on a concrete registry. *)
Lemma handlers_error_codes_witness :
  get_task_status server_busy "nobody" = HTTPException 404 "Task not found"
  /\ download_result server_busy "t-busy"
     = HTTPException 400 "Task not completed"
  /\ download_result server_lost "t-done"
     = HTTPException 404 "Result file not found"
  /\ download_result server_done "t-done"
     = Respond {| fr_path := report_name; fr_media_type := xlsx_media_type;
                  fr_filename := "cv_analysis_20240309_140507.xlsx" |}.
Proof.
  split; [ | split; [ | split ] ].
  - apply (handlers_error_codes server_busy "nobody"). reflexivity.
  - destruct (handlers_error_codes server_busy "t-busy") as (_ & H & _).
    apply (H initial_task); [ reflexivity | discriminate ].
  - destruct (handlers_error_codes server_lost "t-done") as (_ & _ & H & _).
    apply (H completed_task report_name); reflexivity.
  - destruct (handlers_error_codes server_done "t-done") as (_ & _ & _ & H).
    apply (H completed_task report_name (report_workbook [] []));
      try reflexivity. discriminate.
Defined.

(* ===================================================================== *)
(** ** Reasoning about runs                                              *)
(* ===================================================================== *)

#[local] Instance same_preorder {S X} (f : S -> X) : PreOrder (same f).
Proof.
  split; [ by intros s | ].
  intros a b c Hab Hbc. unfold same in *. congruence.
Qed.

Section Preserves.
Context {S : Type} (R : S -> S -> Prop) `{!PreOrder R}.

Lemma preserves_ret {A} (a : A) : preserves R (ret a).
Proof. intros s. simpl. split; [ constructor | reflexivity ]. Qed.

Lemma preserves_raise {A} e : preserves R (@raise S A e).
Proof. intros s. simpl. split; [ constructor | reflexivity ]. Qed.

Lemma preserves_lift {A} (r : res A) : preserves R (lift r).
Proof. intros s. simpl. split; [ constructor | reflexivity ]. Qed.

Lemma preserves_gets {A} (f : S -> A) : preserves R (gets f).
Proof. intros s. simpl. split; [ constructor | reflexivity ]. Qed.

Lemma preserves_step {A} (f : S -> res A * S) :
  (forall s, R s (f s).2) -> preserves R (step f).
Proof.
  intros H s. unfold step. specialize (H s). destruct (f s) as [r s'].
  simpl in *. split; [ by repeat constructor | done ].
Qed.

Lemma preserves_modify (f : S -> S) :
  (forall s, R s (f s)) -> preserves R (modify f).
Proof. intros H. by apply preserves_step. Qed.

Lemma Forall_later (s s' : S) (l : list S) :
  R s s' -> Forall (R s') l -> Forall (R s) l.
Proof.
  intros Hss Hl. eapply Forall_impl; [ exact Hl | ].
  intros x Hx. by transitivity s'.
Qed.

Lemma preserves_bind {A B} (m : M S A) (f : A -> M S B) :
  preserves R m -> (forall a, preserves R (f a)) -> preserves R (bind m f).
Proof.
  intros Hm Hf s. unfold bind. destruct (Hm s) as [Hv Hfin].
  destruct (outcome (m s)) as [a|e]; simpl; [ | done ].
  destruct (Hf a (final (m s))) as [Hv' Hfin'].
  split; [ | by transitivity (final (m s)) ].
  apply Forall_app. split; [ done | by eapply Forall_later ].
Qed.

Lemma preserves_try_except {A} (m : M S A) (h : exn -> M S A) :
  preserves R m -> (forall e, preserves R (h e)) ->
  preserves R (try_except m h).
Proof.
  intros Hm Hh s. unfold try_except. destruct (Hm s) as [Hv Hfin].
  destruct (outcome (m s)) as [a|e]; simpl; [ done | ].
  destruct (Hh e (final (m s))) as [Hv' Hfin'].
  split; [ | by transitivity (final (m s)) ].
  apply Forall_app. split; [ done | by eapply Forall_later ].
Qed.

Lemma preserves_try_finally {A} (m : M S A) (fin : M S unit) :
  preserves R m -> preserves R fin -> preserves R (try_finally m fin).
Proof.
  intros Hm Hf s. unfold try_finally. destruct (Hm s) as [Hv Hfin].
  destruct (Hf (final (m s))) as [Hv' Hfin']. simpl.
  split; [ | by transitivity (final (m s)) ].
  apply Forall_app. split; [ done | by eapply Forall_later ].
Qed.

Lemma preserves_for_each {A} (xs : list A) (body : A -> M S unit) :
  (forall x, preserves R (body x)) -> preserves R (for_each xs body).
Proof.
  intros Hb. induction xs as [|x xs IH]; simpl.
  - apply preserves_ret.
  - apply preserves_bind; [ apply Hb | intros _; apply IH ].
Qed.
End Preserves.

(** A relation that holds along a run holds for any weaker relation. *)
Lemma preserves_weaken {S A} (R R' : S -> S -> Prop) (m : M S A) :
  (forall s s', R s s' -> R' s s') -> preserves R m -> preserves R' m.
Proof.
  intros HR Hm s. destruct (Hm s) as [Hv Hf].
  split; [ eapply Forall_impl; eauto | auto ].
Qed.

(** Runs of a sequence, by the way its first part ends. *)
Lemma bind_Return {S A B} (m : M S A) (f : A -> M S B) s a :
  outcome (m s) = Return a ->
  bind m f s = Run (outcome (f a (final (m s))))
                   (final (f a (final (m s))))
                   (visited (m s) ++ visited (f a (final (m s)))).
Proof. intros H. unfold bind. by rewrite H. Qed.

Lemma bind_Raise {S A B} (m : M S A) (f : A -> M S B) s e :
  outcome (m s) = Raise e ->
  bind m f s = Run (Raise e) (final (m s)) (visited (m s)).
Proof. intros H. unfold bind. by rewrite H. Qed.

(** Runs of a sequence whose first part is a primitive. *)
Lemma run_eta {S A} (r : run S A) :
  Run (outcome r) (final r) (visited r) = r.
Proof. by destruct r. Qed.

Lemma bind_modify {S B} (f : S -> S) (k : unit -> M S B) s :
  bind (modify f) k s
  = Run (outcome (k tt (f s))) (final (k tt (f s)))
        (f s :: visited (k tt (f s))).
Proof. reflexivity. Qed.

Lemma bind_gets {S A B} (f : S -> A) (k : A -> M S B) s :
  bind (gets f) k s = k (f s) s.
Proof. unfold bind, gets. cbn. apply run_eta. Qed.

Lemma bind_ret {S A B} (a : A) (k : A -> M S B) s :
  bind (ret a) k s = k a s.
Proof. unfold bind, ret. cbn. apply run_eta. Qed.

Lemma bind_lift_Return {S A B} (a : A) (k : A -> M S B) s :
  bind (lift (Return a)) k s = k a s.
Proof. unfold bind, lift. cbn. apply run_eta. Qed.

Lemma bind_lift_Raise {S A B} e (k : A -> M S B) s :
  bind (lift (Raise e)) k s = Run (Raise e) s [].
Proof. reflexivity. Qed.

Lemma bind_step_Return {S A B} (f : S -> res A * S) (k : A -> M S B) s a s' :
  f s = (Return a, s') ->
  bind (step f) k s
  = Run (outcome (k a s')) (final (k a s')) (s' :: visited (k a s')).
Proof. intros H. unfold bind, step. by rewrite H. Qed.

Lemma bind_step_Raise {S A B} (f : S -> res A * S) (k : A -> M S B) s e s' :
  f s = (Raise e, s') ->
  bind (step f) k s = Run (Raise e) s' [s'].
Proof. intros H. unfold bind, step. by rewrite H. Qed.

(* ===================================================================== *)
(** ** What each part of the pipeline leaves alone                       *)
(* ===================================================================== *)

Ltac preserves_step_tac :=
  lazymatch goal with
  | |- preserves _ (ret _) => apply preserves_ret
  | |- preserves _ (raise _) => apply preserves_raise
  | |- preserves _ (lift _) => apply preserves_lift
  | |- preserves _ (gets _) => apply preserves_gets
  | |- preserves _ (bind _ _) => apply preserves_bind
  | |- preserves _ (try_except _ _) => apply preserves_try_except
  | |- preserves _ (try_finally _ _) => apply preserves_try_finally
  | |- preserves _ (for_each _ _) => apply preserves_for_each
  | |- preserves _ (modify _) => apply preserves_modify
  | |- preserves _ (step _) => apply preserves_step
  | |- preserves _ _ => fail
  | |- PreOrder _ => apply _
  | |- _ => first [ intros ?; unfold same; reflexivity | intros ? ]
  end.

Ltac preserves_tac := repeat preserves_step_tac.

Lemma call_gemini_api_frame env :
  preserves (same outside_api) (_call_gemini_api env).
Proof.
  unfold _call_gemini_api. generalize (seq 0 max_retries).
  generalize max_retries, retry_delay. intros mr rd attempts.
  induction attempts as [|a attempts IH]; simpl.
  - apply preserves_ret; apply _.
  - apply preserves_bind; [ apply _ | | ].
    + unfold attempt_once, chat_completions_create, asyncio_sleep.
      apply preserves_try_except; [ apply _ | | intros e ].
      * preserves_tac.
      * destruct (a =? mr - 1)%nat; preserves_tac.
    + intros [response|]; [ apply preserves_ret; apply _ | exact IH ].
Qed.

Lemma analyze_cv_frame env : preserves (same outside_api) (analyze_cv env).
Proof.
  unfold analyze_cv.
  apply preserves_try_except; [ apply _ | | intros e; preserves_tac ].
  apply preserves_bind; [ apply _ | apply call_gemini_api_frame | ].
  intros r. preserves_tac.
Qed.

Lemma outside_api_single s s' :
  same outside_api s s' -> same outside_single s s'.
Proof.
  unfold same, outside_api, outside_single. intros [= -> -> -> ->]. done.
Qed.

Lemma process_single_cv_frame env pdf_path :
  preserves (same outside_single) (_process_single_cv env pdf_path).
Proof.
  unfold _process_single_cv, results_append.
  preserves_tac.
  eapply preserves_weaken; [ apply outside_api_single | apply analyze_cv_frame ].
Qed.

(** [_process_single_cv] appends its row as its last action: a call that
    raises leaves [results] as it found it. *)
Lemma process_single_cv_results env pdf_path w :
  match outcome (_process_single_cv env pdf_path w) with
  | Return _ =>
      exists analysis row,
        success_row (basename pdf_path) analysis = Return row
        /\ results (self (final (_process_single_cv env pdf_path w)))
           = results (self w) ++ [row]
  | Raise _ =>
      results (self (final (_process_single_cv env pdf_path w)))
      = results (self w)
  end.
Proof.
  unfold _process_single_cv, results_append.
  generalize (analyze_cv_frame env). generalize (analyze_cv env).
  intros analyze Hframe.
  rewrite bind_modify. cbn [outcome final].
  generalize (eq_refl : results (self (set_self (set_current_status
                ("Processing " +:+ basename pdf_path)) w)) = results (self w)).
  generalize (set_self (set_current_status
                ("Processing " +:+ basename pdf_path)) w).
  intros w1 Hw1.
  destruct (_pdf_to_images env pdf_path) as [images|e].
  { rewrite bind_lift_Return.
    destruct (Hframe w1) as [_ Hfin].
    unfold same, outside_api in Hfin. injection Hfin as Hself _ _ _.
    destruct (outcome (analyze w1)) as [analysis|e] eqn:Ha.
    - rewrite (bind_Return _ _ _ analysis) by exact Ha. cbn [outcome final].
      destruct (success_row (basename pdf_path) analysis) as [row|e] eqn:Hrow.
      + rewrite bind_lift_Return. unfold modify, step. cbn [outcome final].
        exists analysis, row. split; [ exact Hrow | ].
        unfold set_self, set_results. cbn [self results].
        by rewrite Hself, Hw1.
      + rewrite bind_lift_Raise. cbn [outcome final]. by rewrite Hself.
    - rewrite (bind_Raise _ _ _ e) by exact Ha. cbn [outcome final].
      by rewrite Hself. }
  rewrite bind_lift_Raise. cbn [outcome final]. exact Hw1.
Qed.

(** One iteration of the loop of [process_zip] never raises; it counts
    the document and records exactly one row for it. *)
Lemma process_document_run env pdf_path w :
  outcome (process_document env pdf_path w) = Return tt
  /\ processed_count (self (final (process_document env pdf_path w)))
     = processed_count (self w) + 1
  /\ (exists row, row_of_document env pdf_path w = Some row
        /\ results (self (final (process_document env pdf_path w)))
           = results (self w) ++ [row])
  /\ same outside_document w (final (process_document env pdf_path w))
  /\ Forall (fun s =>
       same outside_document w s
       /\ processed_count (self w) <= processed_count (self s)
          <= processed_count (self w) + 1)
       (visited (process_document env pdf_path w)).
Proof.
  unfold process_document, try_finally, try_except, row_of_document.
  pose proof (process_single_cv_results env pdf_path w) as Hres.
  destruct (process_single_cv_frame env pdf_path w) as [Hv Hfin].
  remember (_process_single_cv env pdf_path w) as r eqn:Hr. clear Hr.
  assert (Hvis : Forall (fun s =>
            same outside_document w s
            /\ processed_count (self w) <= processed_count (self s)
               <= processed_count (self w) + 1)
            (visited r)).
  { eapply Forall_impl; [ exact Hv | ]. intros s.
    unfold same, outside_single, outside_document.
    intros [= -> -> -> -> -> ->]. split; [ done | lia ]. }
  unfold same, outside_single in Hfin.
  injection Hfin as Hrole Htot Hproc Htemp Hdisk Hclock.
  assert (Hincr : forall s,
            same outside_single w s ->
            same outside_document w
              (set_self (fun c => set_processed_count (processed_count c + 1) c) s)
            /\ processed_count (self w)
               <= processed_count (self (set_self (fun c =>
                    set_processed_count (processed_count c + 1) c) s))
               <= processed_count (self w) + 1).
  { intros s. unfold same, outside_single, outside_document.
    intros [= H1 H2 H3 H4 H5 H6]. cbn. rewrite H1, H2, H3, H4, H5, H6.
    split; [ done | lia ]. }
  assert (Hfin' : same outside_single w (final r)).
  { unfold same, outside_single. congruence. }
  destruct (outcome r) as [[]|e] eqn:Ho; cbn.
  - destruct Hres as (analysis & row & Hrow & Hres).
    rewrite Ho. repeat split.
    + by rewrite Hproc.
    + exists row. rewrite Hres. split; [ by rewrite last_snoc | done ].
    + by apply Hincr.
    + apply Forall_app. split; [ exact Hvis | ].
      constructor; [ by apply Hincr | constructor ].
  - assert (Hs2 : same outside_single w
             (set_self (fun c =>
                set_results (results c ++ [failure_row (basename pdf_path) (str e)]) c)
                (final r))).
    { unfold same, outside_single. cbn.
      by rewrite Hrole, Htot, Hproc, Htemp, Hdisk, Hclock. }
    repeat split.
    + by rewrite Hproc.
    + eexists. split; [ reflexivity | ]. by rewrite Hres.
    + by apply Hincr.
    + apply Forall_app. split; [ apply Forall_app; split | ].
      * exact Hvis.
      * constructor; [ | constructor ]. cbn.
        unfold same, outside_single, outside_document in *. cbn in *.
        rewrite Hrole, Htot, Hproc, Htemp, Hdisk, Hclock.
        split; [ done | lia ].
      * constructor; [ by apply Hincr | constructor ].
Qed.

Lemma process_document_final env pdf_path w :
  final (process_document env pdf_path w)
  ∈ visited (process_document env pdf_path w).
Proof.
  unfold process_document, try_finally. cbn.
  apply elem_of_app. right. apply list_elem_of_singleton. reflexivity.
Qed.

(** The loop of [process_zip] over the validated documents. *)
Lemma documents_loop env docs : forall w,
  outcome (for_each docs (process_document env) w) = Return tt
  /\ processed_count (self (final (for_each docs (process_document env) w)))
     = processed_count (self w) + length docs
  /\ same outside_document w (final (for_each docs (process_document env) w))
  /\ Forall (fun s =>
       same outside_document w s
       /\ processed_count (self w) <= processed_count (self s)
          <= processed_count (self w) + length docs)
       (visited (for_each docs (process_document env) w))
  /\ exists rows,
       results (self (final (for_each docs (process_document env) w)))
       = results (self w) ++ rows
       /\ length rows = length docs
       /\ forall i p, docs !! i = Some p ->
            exists wi,
              wi ∈ w :: visited (for_each docs (process_document env) w)
              /\ processed_count (self wi) = processed_count (self w) + i
              /\ is_Some (rows !! i)
              /\ rows !! i = row_of_document env p wi.
Proof.
  induction docs as [|p docs IH]; intros w.
  - cbn. repeat split; [ lia | constructor | ].
    exists []. rewrite app_nil_r. repeat split. intros i p. by rewrite lookup_nil.
  - destruct (process_document_run env p w)
      as (Ho & Hproc & (row & Hrow & Hres) & Hframe & Hvis).
    pose proof (process_document_final env p w) as Hlast.
    cbn [for_each]. rewrite (bind_Return _ _ _ tt) by exact Ho.
    cbn [outcome final visited].
    remember (process_document env p w) as r1 eqn:Hr1. clear Hr1.
    destruct (IH (final r1)) as (Ho' & Hproc' & Hframe' & Hvis' & rows & Hres' & Hlen & Hrows).
    remember (for_each docs (process_document env) (final r1)) as r2 eqn:Hr2.
    clear Hr2 IH.
    split; [ done | ]. split; [ cbn [length]; lia | ].
    split; [ unfold same in *; congruence | ].
    split.
    { apply Forall_app. split.
      - eapply Forall_impl; [ exact Hvis | ]. cbn [length].
        intros s [? ?]. split; [ done | lia ].
      - eapply Forall_impl; [ exact Hvis' | ]. cbn [length].
        intros s [? ?]. split; [ unfold same in *; congruence | lia ]. }
    exists (row :: rows). split; [ | split ].
    + rewrite Hres', Hres, <- app_assoc. done.
    + cbn [length]. lia.
    + intros [|i] q Hq; cbn in Hq.
      * injection Hq as <-. exists w. repeat split.
        -- apply elem_of_cons. by left.
        -- lia.
        -- by eexists.
        -- by rewrite Hrow.
      * destruct (Hrows i q Hq) as (wi & Hin & Hpi & Hsome & Hri).
        exists wi. repeat split; [ | lia | done | done ].
        apply elem_of_cons. right. apply elem_of_app.
        apply elem_of_cons in Hin as [-> | Hin]; [ by left | by right ].
Qed.

(* ===================================================================== *)
(** ** Extraction                                                        *)
(* ===================================================================== *)

Lemma top_component_flat f : has_slash f = false -> top_component f = f.
Proof.
  induction f as [|c f IH]; cbn; [ done | ].
  destruct (Ascii.eqb c slash); cbn; [ discriminate | ].
  intros H. by rewrite IH.
Qed.


Lemma os_remove_frame file : preserves (same outside_temp) (os_remove file).
Proof.
  unfold os_remove. apply preserves_step; try apply _. intros s.
  destruct (temp s) as [m|]; [ | done ].
  destruct (m !! top_component file) as [[]|]; [ | | done ];
    by destruct (has_slash file).
Qed.

Lemma os_makedirs_frame : preserves (same outside_temp) os_makedirs.
Proof.
  unfold os_makedirs. apply preserves_modify; try apply _. intros s.
  by destruct (temp s).
Qed.

Lemma os_rmdir_frame : preserves (same outside_temp) os_rmdir.
Proof.
  unfold os_rmdir. apply preserves_step; try apply _. intros s.
  destruct (temp s) as [m|]; [ | done ]. by case_bool_decide.
Qed.

Lemma cleanup_frame : preserves (same outside_temp) cleanup.
Proof.
  unfold cleanup. preserves_tac.
  match goal with |- preserves _ (if ?b then _ else _) => destruct b end.
  - preserves_tac; [ apply os_remove_frame | apply os_rmdir_frame ].
  - preserves_tac.
Qed.

Lemma extract_members_frame env zf namelist : forall pdf_files,
  preserves (same outside_temp) (extract_members env zf namelist pdf_files).
Proof.
  induction namelist as [|file rest IH]; intros pdf_files; cbn.
  - preserves_tac.
  - destruct (endswith (lower file) ".pdf"); cbn; [ | apply IH ].
    unfold zf_extract. preserves_tac.
    destruct (_is_valid_pdf env (zf_read zf file)); [ apply IH | ].
    preserves_tac; [ apply os_remove_frame | apply IH ].
Qed.

Lemma extract_zip_frame env zip_file :
  preserves (same outside_temp) (_extract_zip env zip_file).
Proof.
  unfold _extract_zip. preserves_tac. apply extract_members_frame.
Qed.

(** A member that was just extracted can be removed again. *)
Lemma remove_after_extract file w :
  outcome (os_remove file (final (zf_extract file w))) = Return tt.
Proof.
  unfold os_remove, zf_extract, modify, step. cbn.
  rewrite lookup_insert_eq. by destruct (has_slash file).
Qed.

(** The loop of [_extract_zip] never raises, and keeps, in archive
    order, the names that pass both tests. *)
Lemma extract_members_outcome env zf namelist : forall pdf_files w,
  outcome (extract_members env zf namelist pdf_files w)
  = Return (pdf_files ++
            map (path_join temp_dir)
                (filter (fun f => accepted env zf f = true) namelist)).
Proof.
  induction namelist as [|file rest IH]; intros pdf_files w;
    cbn [extract_members].
  - cbn. by rewrite app_nil_r.
  - destruct (endswith (lower file) ".pdf") eqn:Hext; cbn [negb].
    2:{ rewrite IH. rewrite filter_cons_False; [ done | ].
        unfold accepted. rewrite Hext. cbn. discriminate. }
    rewrite (bind_Return _ _ _ tt) by reflexivity. cbn [outcome].
    destruct (_is_valid_pdf env (zf_read zf file)) eqn:Hvalid.
    + rewrite IH. rewrite filter_cons_True.
      * cbn. by rewrite <- app_assoc.
      * unfold accepted. by rewrite Hext, Hvalid.
    + rewrite (bind_Return _ _ _ tt) by apply remove_after_extract.
      cbn [outcome]. rewrite IH. rewrite filter_cons_False; [ done | ].
      unfold accepted. rewrite Hext, Hvalid. cbn. discriminate.
Qed.

Lemma extract_zip_outcome env zip_file w :
  outcome (_extract_zip env zip_file w)
  = match zip_open env zip_file with
    | Return zf => Return (validated env zf)
    | Raise e => Raise e
    end.
Proof.
  unfold _extract_zip, validated.
  destruct (zip_open env zip_file) as [zf|e] eqn:Hz.
  - rewrite (bind_Return _ _ _ zf) by reflexivity.
    cbn [outcome]. by rewrite extract_members_outcome.
  - rewrite (bind_Raise _ _ _ e) by reflexivity. done.
Qed.

(** With flat names, extraction only ever puts plain files in [temp]. *)
Lemma extract_members_tidy env zf namelist : forall pdf_files w,
  flat_names namelist -> is_Some (temp w) -> tidy (temp w) ->
  is_Some (temp (final (extract_members env zf namelist pdf_files w)))
  /\ tidy (temp (final (extract_members env zf namelist pdf_files w))).
Proof.
  induction namelist as [|file rest IH]; intros pdf_files w Hflat Hsome Htidy;
    cbn [extract_members]; [ done | ].
  apply Forall_cons in Hflat as [Hfile Hflat].
  destruct (endswith (lower file) ".pdf") eqn:Hext; cbn [negb];
    [ | by apply IH ].
  specialize (Hfile eq_refl).
  rewrite (bind_Return _ _ _ tt) by reflexivity. cbn [final].
  destruct Hsome as [m Hm].
  assert (Hafter : temp (final (zf_extract file w)) = Some (<[file := KFile]> m)).
  { unfold zf_extract, modify, step. cbn.
    by rewrite Hm, Hfile, top_component_flat. }
  assert (Htidy' : tidy (Some (<[file := KFile]> m))).
  { cbn. apply map_Forall_insert_2; [ done | ]. by rewrite Hm in Htidy. }
  destruct (_is_valid_pdf env (zf_read zf file)).
  - apply IH; [ done | by rewrite Hafter | by rewrite Hafter ].
  - rewrite (bind_Return _ _ _ tt) by apply remove_after_extract.
    cbn [final].
    assert (Hrem : temp (final (os_remove file (final (zf_extract file w))))
                   = Some (delete file (<[file := KFile]> m))).
    { unfold os_remove, step. rewrite Hafter.
      rewrite top_component_flat by done.
      rewrite lookup_insert_eq, Hfile. done. }
    apply IH; [ done | by rewrite Hrem | ].
    rewrite Hrem. cbn. by apply map_Forall_delete.
Qed.

(* ===================================================================== *)
(** ** Cleanup of the [temp] directory                                   *)
(* ===================================================================== *)

(** Removing a list of distinct plain files, one after the other. *)
Lemma remove_listing listing : forall m w,
  temp w = Some m -> NoDup listing ->
  (forall n, n ∈ listing -> m !! n = Some KFile /\ has_slash n = false) ->
  outcome (for_each listing os_remove w) = Return tt
  /\ exists m', temp (final (for_each listing os_remove w)) = Some m'
       /\ forall k, m' !! k = if decide (k ∈ listing) then None else m !! k.
Proof.
  induction listing as [|n rest IH]; intros m w Hm Hnd Hfiles.
  - cbn. split; [ done | ]. exists m. split; [ done | ].
    intros k. case_decide as Hk; [ by apply elem_of_nil in Hk | done ].
  - apply NoDup_cons in Hnd as [Hn Hnd].
    destruct (Hfiles n) as [Hfile Hflat]; [ by left | ].
    assert (Hrun : outcome (os_remove n w) = Return tt
                   /\ temp (final (os_remove n w)) = Some (delete n m)).
    { unfold os_remove, step. rewrite Hm, top_component_flat by done.
      by rewrite Hfile, Hflat. }
    destruct Hrun as [Ho Ht].
    cbn [for_each]. rewrite (bind_Return _ _ _ tt) by exact Ho.
    cbn [outcome final].
    destruct (IH (delete n m) (final (os_remove n w)) Ht Hnd)
      as (Ho' & m' & Hm' & Hlook).
    { intros k Hk. rewrite lookup_delete_ne.
      - apply Hfiles. by right.
      - intros ->. done. }
    split; [ done | ]. exists m'. split; [ done | ].
    intros k. rewrite Hlook.
    destruct (decide (k = n)) as [->|Hne].
    + rewrite lookup_delete_eq.
      rewrite (decide_True (P := n ∈ n :: rest)) by (by left).
      by case_decide.
    + rewrite lookup_delete_ne by done.
      case_decide as Hk.
      * by rewrite decide_True by (by right).
      * rewrite decide_False; [ done | ].
        intros [?|?]%elem_of_cons; done.
Qed.

(** When [temp] holds nothing but plain files, the [finally] block of
    [process_zip] succeeds and removes the directory. *)
Lemma cleanup_tidy w :
  tidy (temp w) ->
  outcome (cleanup w) = Return tt /\ temp (final (cleanup w)) = None.
Proof.
  intros Htidy. unfold cleanup.
  rewrite (bind_Return _ _ _ (bool_decide (is_Some (temp w)))) by reflexivity.
  cbn [outcome final gets].
  destruct (temp w) as [m|] eqn:Hm.
  2:{ rewrite bool_decide_eq_false_2 by (by intros [? ?]). done. }
  rewrite bool_decide_eq_true_2 by done.
  rewrite (bind_Return _ _ _ (os_listdir w)) by reflexivity.
  cbn [outcome final gets].
  destruct (remove_listing (os_listdir w) m w Hm) as (Ho & m' & Hm' & Hlook).
  { unfold os_listdir. rewrite Hm. apply NoDup_fst_map_to_list. }
  { unfold os_listdir. rewrite Hm. intros n Hn.
    apply list_elem_of_fmap in Hn as ([n' k] & -> & Hin).
    apply elem_of_map_to_list in Hin. cbn in Htidy.
    destruct (Htidy n' k Hin) as [-> Hflat]. done. }
  rewrite (bind_Return _ _ _ tt) by exact Ho. cbn [outcome final].
  assert (Hempty : m' = ∅).
  { apply map_empty. intros k. rewrite Hlook. case_decide as Hk; [ done | ].
    destruct (m !! k) as [x|] eqn:Hx; [ | done ]. exfalso. apply Hk.
    unfold os_listdir. rewrite Hm.
    apply list_elem_of_fmap. exists (k, x). split; [ done | ].
    by apply elem_of_map_to_list. }
  unfold os_rmdir, step. rewrite Hm', Hempty.
  by rewrite bool_decide_eq_true_2.
Qed.

(* ===================================================================== *)
(** ** Report generation                                                 *)
(* ===================================================================== *)

Lemma bind_now {B} env (k : datetime -> M World B) w :
  bind (now env) k w
  = Run (outcome (k (datetime_now env (clock_reads w))
                    {| self := self w; temp := temp w; disk := disk w;
                       api_calls := api_calls w; sleeps := sleeps w;
                       clock_reads := S (clock_reads w) |}))
        (final (k (datetime_now env (clock_reads w))
                  {| self := self w; temp := temp w; disk := disk w;
                     api_calls := api_calls w; sleeps := sleeps w;
                     clock_reads := S (clock_reads w) |}))
        ({| self := self w; temp := temp w; disk := disk w;
            api_calls := api_calls w; sleeps := sleeps w;
            clock_reads := S (clock_reads w) |}
         :: visited (k (datetime_now env (clock_reads w))
                       {| self := self w; temp := temp w; disk := disk w;
                          api_calls := api_calls w; sleeps := sleeps w;
                          clock_reads := S (clock_reads w) |})).
Proof. reflexivity. Qed.

(** The report goes to the path named after the second clock reading;
    a failure of the writer comes out as one [ValueError]. *)
Lemma generate_report_run env w :
  match excel_write env
          (report_path (datetime_now env (S (clock_reads w))))
          (report_workbook
             (report_metadata (self w) (datetime_now env (clock_reads w)))
             (results (self w))) with
  | Return _ =>
      outcome (_generate_excel_report env w)
      = Return (report_path (datetime_now env (S (clock_reads w))))
      /\ disk (final (_generate_excel_report env w))
         = <[report_path (datetime_now env (S (clock_reads w))) :=
               report_workbook
                 (report_metadata (self w) (datetime_now env (clock_reads w)))
                 (results (self w))]> (disk w)
  | Raise e =>
      outcome (_generate_excel_report env w)
      = Raise (ValueError ("Failed to generate Excel report: " +:+ str e))
      /\ disk (final (_generate_excel_report env w)) = disk w
  end.
Proof.
  unfold _generate_excel_report, try_except.
  rewrite bind_gets, bind_now. cbn [outcome final visited].
  rewrite bind_gets, bind_now.
  cbn [outcome final visited self results clock_reads disk].
  unfold excel_save.
  destruct (excel_write env _ _) as [[]|e] eqn:Hx.
  - erewrite bind_step_Return by reflexivity.
    cbn [outcome final visited ret]. split; reflexivity.
  - erewrite bind_step_Raise by reflexivity.
    cbn [outcome final visited raise]. split; reflexivity.
Qed.

Lemma generate_report_frame env :
  preserves (same outside_report) (_generate_excel_report env).
Proof.
  unfold _generate_excel_report, now, excel_save. preserves_tac.
  unfold same. by destruct (excel_write env _ _).
Qed.

(* ===================================================================== *)
(** ** The batch run, phase by phase                                     *)
(* ===================================================================== *)

Lemma bind_assoc {S A B C} (m : M S A) (f : A -> M S B) (g : B -> M S C) s :
  bind (bind m f) g s = bind m (fun x => bind (f x) g) s.
Proof.
  unfold bind. destruct (outcome (m s)) as [a|e]; cbn; [ | done ].
  destruct (outcome (f a (final (m s)))) as [b|e]; cbn; [ | done ].
  by rewrite app_assoc.
Qed.

Lemma bind_ext {S A B} (m : M S A) (f g : A -> M S B) s :
  (forall a s', f a s' = g a s') -> bind m f s = bind m g s.
Proof.
  intros H. unfold bind. destruct (outcome (m s)); [ | done ]. by rewrite H.
Qed.

(** [process_zip] is its extraction phase followed by the rest, inside
    the [try ... finally]. *)
Lemma process_zip_phases env zip_file w :
  process_zip env zip_file w
  = try_finally
      (pdf_files <- extraction_phase env zip_file ;;
       after_extraction env pdf_files)
      cleanup w.
Proof.
  assert (Hbody :
    (pdf_files <- extraction_phase env zip_file ;;
     after_extraction env pdf_files) w
    = (modify (set_self (set_processed_count 0)) ;;;
       modify (set_self (set_results [])) ;;;
       os_makedirs ;;;
       pdf_files <- _extract_zip env zip_file ;;
       modify (set_self (set_total_count (length pdf_files))) ;;;
       for_each pdf_files (process_document env) ;;;
       _generate_excel_report env) w).
  { unfold extraction_phase, after_extraction.
    rewrite bind_assoc. apply bind_ext. intros _ s1.
    rewrite bind_assoc. apply bind_ext. intros _ s2.
    rewrite bind_assoc. reflexivity. }
  unfold process_zip, try_finally. by rewrite Hbody.
Qed.

(** The extraction phase: counters reset, [temp] created, archive
    extracted. Nothing is counted yet. *)
Lemma extraction_phase_run env zip_file w :
  outcome (extraction_phase env zip_file w)
  = match zip_open env zip_file with
    | Return zf => Return (validated env zf)
    | Raise e => Raise e
    end
  /\ self (final (extraction_phase env zip_file w)) = reset (self w)
  /\ same (fun s => (disk s, api_calls s, sleeps s, clock_reads s)) w
          (final (extraction_phase env zip_file w))
  /\ Forall (fun s => processed_count (self s) = 0
                      /\ total_count (self s) = total_count (self w))
            (visited (extraction_phase env zip_file w)).
Proof.
  unfold extraction_phase, os_makedirs. rewrite !bind_modify.
  cbn [outcome final visited].
  match goal with
  | |- context [_extract_zip env zip_file ?x] =>
      assert (H3 : self x = reset (self w)
                   /\ (disk x, api_calls x, sleeps x, clock_reads x)
                      = (disk w, api_calls w, sleeps w, clock_reads w));
      [ cbn; by destruct (temp w) | generalize dependent x; intros w3 ]
  end.
  intros [Hself3 Hrest3].
  destruct (extract_zip_frame env zip_file w3) as [Hv Hfin].
  rewrite extract_zip_outcome.
  unfold same, outside_temp in Hfin. injection Hfin as Hs Hd Ha Hsl Hc.
  injection Hrest3 as Hd3 Ha3 Hsl3 Hc3.
  split; [ done | ]. split; [ | split ].
  - by rewrite Hs.
  - unfold same. by rewrite Hd, Ha, Hsl, Hc, Hd3, Ha3, Hsl3, Hc3.
  - apply Forall_cons. split; [ done | ].
    apply Forall_cons. split; [ done | ].
    apply Forall_cons. split; [ by rewrite Hself3 | ].
    eapply Forall_impl; [ exact Hv | ]. intros s Hs'.
    unfold same, outside_temp in Hs'. injection Hs' as -> _ _ _ _.
    by rewrite Hself3.
Qed.

Lemma extraction_phase_tidy env zip_file w :
  tidy (temp w) ->
  (forall zf, zip_open env zip_file = Return zf -> flat_names (map name zf)) ->
  tidy (temp (final (extraction_phase env zip_file w))).
Proof.
  intros Htidy Hflat. unfold extraction_phase.
  rewrite (bind_Return _ _ _ tt) by reflexivity.
  rewrite (bind_Return _ _ _ tt) by reflexivity.
  rewrite (bind_Return _ _ _ tt) by reflexivity.
  cbn [final].
  set (w3 := final (os_makedirs _)).
  assert (H3 : is_Some (temp w3) /\ tidy (temp w3)).
  { subst w3. unfold os_makedirs, modify, step. cbn.
    destruct (temp w) as [m|] eqn:Hm; cbn.
    - rewrite Hm. split; [ by eexists | done ].
    - split; [ by eexists | ]. cbn. apply map_Forall_empty. }
  destruct H3 as [Hsome3 Htidy3]. clearbody w3.
  unfold _extract_zip.
  destruct (zip_open env zip_file) as [zf|e] eqn:Hz.
  - rewrite (bind_Return _ _ _ zf) by reflexivity. cbn [final lift].
    by apply extract_members_tidy; [ apply Hflat | | ].
  - rewrite (bind_Raise _ _ _ e) by reflexivity. done.
Qed.

(** The rest of the batch, from the state extraction left: the total is
    set once, every document is counted and gets one row, and the report
    is written. *)
Lemma after_extraction_run env docs w :
  processed_count (self w) = 0 ->
  Forall (fun s => total_count (self s) = length docs
                   /\ processed_count (self s) <= length docs
                   /\ temp s = temp w)
         (visited (after_extraction env docs w))
  /\ total_count (self (final (after_extraction env docs w))) = length docs
  /\ processed_count (self (final (after_extraction env docs w)))
     = length docs
  /\ temp (final (after_extraction env docs w)) = temp w
  /\ role_data (self (final (after_extraction env docs w)))
     = role_data (self w)
  /\ (exists rows,
        results (self (final (after_extraction env docs w)))
        = results (self w) ++ rows
        /\ length rows = length docs
        /\ forall i p, docs !! i = Some p ->
             exists wi,
               wi ∈ visited (after_extraction env docs w)
               /\ processed_count (self wi) = i
               /\ is_Some (rows !! i)
               /\ rows !! i = row_of_document env p wi)
  /\ match excel_write env
             (report_path (datetime_now env (S (clock_reads w))))
             (report_workbook
                (report_metadata
                   (self (final (after_extraction env docs w)))
                   (datetime_now env (clock_reads w)))
                (results (self (final (after_extraction env docs w))))) with
     | Return _ =>
         outcome (after_extraction env docs w)
         = Return (report_path (datetime_now env (S (clock_reads w))))
         /\ disk (final (after_extraction env docs w))
            = <[report_path (datetime_now env (S (clock_reads w))) :=
                  report_workbook
                    (report_metadata
                       (self (final (after_extraction env docs w)))
                       (datetime_now env (clock_reads w)))
                    (results (self (final (after_extraction env docs w))))]>
                (disk w)
     | Raise e =>
         outcome (after_extraction env docs w)
         = Raise (ValueError ("Failed to generate Excel report: " +:+ str e))
         /\ disk (final (after_extraction env docs w)) = disk w
     end.
Proof.
  intros Hzero. unfold after_extraction. rewrite bind_modify.
  rewrite (bind_Return _ _ _ tt) by apply documents_loop.
  generalize (documents_loop env docs
                (set_self (set_total_count (length docs)) w)).
  generalize (for_each docs (process_document env)
                (set_self (set_total_count (length docs)) w)).
  intros loop (Ho & Hproc & Hframe & Hvis & rows & Hres & Hlen & Hrows).
  generalize (generate_report_run env (final loop)).
  generalize (generate_report_frame env (final loop)).
  generalize (_generate_excel_report env (final loop)).
  intros rep [Hrv Hrf] Hrep.
  cbn [outcome final visited].
  unfold same, outside_document in Hframe. cbn in Hframe.
  injection Hframe as Hrole Htot Htemp Hdisk Hclock.
  unfold same, outside_report in Hrf. injection Hrf as Hself Hrtemp _ _.
  cbn in Hproc. rewrite Hzero in Hproc. cbn in Hproc.
  split.
  { apply Forall_cons. split; [ cbn; split; [ done | split; [ lia | done ] ] | ].
    apply Forall_app. split.
    - eapply Forall_impl; [ exact Hvis | ]. intros s [Hs Hp].
      unfold same, outside_document in Hs. cbn in Hs, Hp.
      injection Hs as _ -> -> _ _. rewrite Hzero in Hp.
      split; [ done | split; [ lia | done ] ].
    - eapply Forall_impl; [ exact Hrv | ]. intros s Hs.
      unfold same, outside_report in Hs. injection Hs as -> -> _ _.
      rewrite Htot, Hproc, Htemp. done. }
  rewrite Hself.
  split; [ done | ]. split; [ done | ].
  split; [ by rewrite Hrtemp | ].
  split; [ done | ].
  split.
  { exists rows. rewrite Hres. split; [ done | ]. split; [ done | ].
    intros i p Hp. destruct (Hrows i p Hp) as (wi & Hin & Hpi & Hsome & Hrow).
    exists wi. split; [ | split; [ | done ] ].
    - apply elem_of_cons in Hin as [-> | Hin]; [ by left | ].
      right. apply elem_of_app. by left.
    - cbn in Hpi. rewrite Hzero in Hpi. exact Hpi. }
  rewrite Hclock, Hdisk in Hrep. exact Hrep.
Qed.

(** A run of [process_zip] on an archive that opens: extraction, then
    the rest, then the [finally] block. *)
Lemma process_zip_opened env zip_file w zf :
  zip_open env zip_file = Return zf ->
  visited (process_zip env zip_file w)
  = visited (extraction_phase env zip_file w)
    ++ visited (after_extraction env (validated env zf)
                  (final (extraction_phase env zip_file w)))
    ++ visited (cleanup (final (after_extraction env (validated env zf)
                                  (final (extraction_phase env zip_file w)))))
  /\ final (process_zip env zip_file w)
     = final (cleanup (final (after_extraction env (validated env zf)
                                (final (extraction_phase env zip_file w)))))
  /\ outcome (process_zip env zip_file w)
     = match outcome (cleanup (final (after_extraction env (validated env zf)
                                (final (extraction_phase env zip_file w))))) with
       | Return _ =>
           outcome (after_extraction env (validated env zf)
                      (final (extraction_phase env zip_file w)))
       | Raise e => Raise e
       end.
Proof.
  intros Hz. rewrite process_zip_phases. unfold try_finally.
  destruct (extraction_phase_run env zip_file w) as (Ho & _).
  rewrite Hz in Ho.
  rewrite (bind_Return _ _ _ (validated env zf)) by exact Ho.
  cbn [outcome final visited]. by rewrite app_assoc.
Qed.

(** A run of [process_zip] on an archive that does not open. *)
Lemma process_zip_unopened env zip_file w e :
  zip_open env zip_file = Raise e ->
  visited (process_zip env zip_file w)
  = visited (extraction_phase env zip_file w)
    ++ visited (cleanup (final (extraction_phase env zip_file w)))
  /\ final (process_zip env zip_file w)
     = final (cleanup (final (extraction_phase env zip_file w)))
  /\ outcome (process_zip env zip_file w)
     = match outcome (cleanup (final (extraction_phase env zip_file w))) with
       | Return _ => Raise e
       | Raise e' => Raise e'
       end.
Proof.
  intros Hz. rewrite process_zip_phases. unfold try_finally.
  destruct (extraction_phase_run env zip_file w) as (Ho & _).
  rewrite Hz in Ho.
  rewrite (bind_Raise _ _ _ e) by exact Ho.
  cbn [outcome final visited]. done.
Qed.


(** A document whose processing raises gets the failure row that
    carries its file name and the message of the exception. *)
Lemma row_of_document_failure env pdf_path w e :
  outcome (_process_single_cv env pdf_path w) = Raise e ->
  row_of_document env pdf_path w
  = Some (failure_row (basename pdf_path) (str e)).
Proof. intros H. unfold row_of_document. by rewrite H. Qed.

(* ===================================================================== *)
(** ** Counters and rows of a batch                                      *)
(* ===================================================================== *)

Lemma process_zip_rows env zip_file w zf :
  zip_open env zip_file = Return zf ->
  Forall (fun s => total_count (self s) = length (validated env zf)
                   /\ processed_count (self s) <= total_count (self s))
         (visited (after_extraction env (validated env zf)
                     (final (extraction_phase env zip_file w)))
          ++ visited (cleanup (final (after_extraction env (validated env zf)
                        (final (extraction_phase env zip_file w))))))
  /\ processed_count (self (final (process_zip env zip_file w)))
     = length (validated env zf)
  /\ total_count (self (final (process_zip env zip_file w)))
     = length (validated env zf)
  /\ length (results (self (final (process_zip env zip_file w))))
     = length (validated env zf)
  /\ forall i p, validated env zf !! i = Some p ->
       exists wi,
         wi ∈ visited (process_zip env zip_file w)
         /\ processed_count (self wi) = i
         /\ is_Some (results (self (final (process_zip env zip_file w))) !! i)
         /\ results (self (final (process_zip env zip_file w))) !! i
            = row_of_document env p wi.
Proof.
  intros Hz.
  destruct (process_zip_opened env zip_file w zf Hz) as (Hvis & Hfin & _).
  rewrite Hvis, Hfin.
  destruct (extraction_phase_run env zip_file w) as (_ & Hself & _ & _).
  remember (final (extraction_phase env zip_file w)) as w1 eqn:Hw1. clear Hw1.
  assert (Hzero : processed_count (self w1) = 0) by (by rewrite Hself).
  assert (Hnil : results (self w1) = []) by (by rewrite Hself).
  destruct (after_extraction_run env (validated env zf) w1 Hzero)
    as (Hv & Htot & Hproc & _ & _ & (rows & Hres & Hlen & Hrows) & _).
  destruct (cleanup_frame
              (final (after_extraction env (validated env zf) w1)))
    as [Hcv Hcf].
  remember (after_extraction env (validated env zf) w1) as ra eqn:Hra.
  clear Hra.
  remember (cleanup (final ra)) as rc eqn:Hrc. clear Hrc.
  unfold same, outside_temp in Hcf. injection Hcf as Hcself _ _ _ _.
  rewrite Hcself. rewrite Hnil in Hres. cbn in Hres.
  split.
  { apply Forall_app. split.
    - eapply Forall_impl; [ exact Hv | ]. intros s (-> & ? & _). done.
    - eapply Forall_impl; [ exact Hcv | ]. intros s Hs.
      unfold same, outside_temp in Hs. injection Hs as -> _ _ _ _.
      rewrite Htot, Hproc. done. }
  split; [ done | ]. split; [ done | ].
  split; [ by rewrite Hres | ].
  intros i p Hp. destruct (Hrows i p Hp) as (wi & Hin & Hpi & Hsome & Hrow).
  exists wi. rewrite Hres. split; [ | done ].
  apply elem_of_app. right. apply elem_of_app. by left.
Qed.



(* ===================================================================== *)
(** ** The background task and the registry                              *)
(* ===================================================================== *)

(** The shape of a run of [process_cvs_task], whatever the batch does:
    the registry is read and written once, after the batch has ended. *)
Lemma task_run_shape (batch : M World string) task_id role s t :
  tasks s !! task_id = Some t ->
  visited
    (try_except
       (in_world (modify (set_self (fun _ =>
          CVScreener_init (role_data_of role)))) ;;;
        path <- in_world batch ;;
        current <- gets (fun s => get_progress (self (world s))) ;;
        tasks_update task_id (fun t =>
          {| status := "COMPLETED"; progress := current;
             result_path := Some path; error := error t |}))
       (fun e =>
          tasks_update task_id (fun t =>
            {| status := "FAILED"; progress := progress t;
               result_path := result_path t; error := Some (str e) |})) s)
  = map (in_registry (tasks s))
        (batch_world role (world s)
         :: visited (batch (batch_world role (world s))))
    ++ [in_registry
          (<[task_id :=
               match outcome (batch (batch_world role (world s))) with
               | Return path =>
                   completed
                     (self (final (batch (batch_world role (world s)))))
                     path t
               | Raise e => failed e t
               end]> (tasks s))
          (final (batch (batch_world role (world s))))]
  /\ final
       (try_except
          (in_world (modify (set_self (fun _ =>
             CVScreener_init (role_data_of role)))) ;;;
           path <- in_world batch ;;
           current <- gets (fun s => get_progress (self (world s))) ;;
           tasks_update task_id (fun t =>
             {| status := "COMPLETED"; progress := current;
                result_path := Some path; error := error t |}))
          (fun e =>
             tasks_update task_id (fun t =>
               {| status := "FAILED"; progress := progress t;
                  result_path := result_path t; error := Some (str e) |})) s)
     = in_registry
         (<[task_id :=
              match outcome (batch (batch_world role (world s))) with
              | Return path =>
                  completed
                    (self (final (batch (batch_world role (world s)))))
                    path t
              | Raise e => failed e t
              end]> (tasks s))
         (final (batch (batch_world role (world s)))).
Proof.
  intros Ht.
  unfold try_except, bind, in_world, tasks_update, modify, step, gets,
    in_registry, completed, failed.
  cbn [outcome final visited tasks world map].
  fold (batch_world role (world s)).
  destruct (batch (batch_world role (world s))) as [[path|e] w' v];
    cbn [outcome final visited tasks world map]; rewrite Ht;
    cbn [outcome final visited tasks world map app].
  - split; [ | done ]. by rewrite <- ?app_assoc, ?app_nil_r.
  - split; [ | done ]. by rewrite <- ?app_assoc, ?app_nil_r.
Qed.

Lemma process_cvs_task_run env task_id zip_content role s t :
  tasks s !! task_id = Some t ->
  visited (process_cvs_task env task_id zip_content role s)
  = map (in_registry (tasks s))
        (batch_world role (world s)
         :: visited (process_zip env zip_content (batch_world role (world s))))
    ++ [final (process_cvs_task env task_id zip_content role s)]
  /\ final (process_cvs_task env task_id zip_content role s)
     = in_registry
         (<[task_id :=
              match outcome (process_zip env zip_content
                               (batch_world role (world s))) with
              | Return path =>
                  completed
                    (self (final (process_zip env zip_content
                                    (batch_world role (world s)))))
                    path t
              | Raise e => failed e t
              end]> (tasks s))
         (final (process_zip env zip_content (batch_world role (world s)))).
Proof.
  intros Ht.
  destruct (task_run_shape (process_zip env zip_content) task_id role s t Ht)
    as [Hv Hf].
  unfold process_cvs_task. rewrite Hf. split; [ exact Hv | reflexivity ].
Qed.

(** [screen_cvs] registers the task as PROCESSING with zero progress. *)
Lemma screen_cvs_registers env filename task_id s :
  endswith (lower filename) ".zip" = true ->
  (screen_cvs env filename task_id s).1 = Respond task_id
  /\ tasks (screen_cvs env filename task_id s).2 !! task_id
     = Some initial_task
  /\ world (screen_cvs env filename task_id s).2 = world s.
Proof.
  intros H. unfold screen_cvs. rewrite H. cbn.
  by rewrite lookup_insert_eq.
Qed.

(** C10. When the batch fails fatally, the final update of the registry
    entry changes its status to FAILED and its error to the message, and
    nothing else: [progress] and [result_path] keep the values they had,
    which for an entry registered by [screen_cvs] are the zero progress
    and [None]; the other entries are untouched. *)
Theorem fatal_failure_update (env : Env) (task_id : string)
    (zip_content : bytes) (role : JobRole) (s : Server) (t : Task) (e : exn) :
  tasks s !! task_id = Some t ->
  outcome (process_zip env zip_content (batch_world role (world s)))
  = Raise e ->
  tasks (final (process_cvs_task env task_id zip_content role s))
  = <[task_id := {| status := "FAILED"; progress := progress t;
                    result_path := result_path t;
                    error := Some (str e) |}]> (tasks s)
  /\ (t = initial_task ->
      tasks (final (process_cvs_task env task_id zip_content role s))
        !! task_id
      = Some {| status := "FAILED"; progress := initial_progress;
                result_path := None; error := Some (str e) |}).
Proof.
  intros Ht He.
  destruct (process_cvs_task_run env task_id zip_content role s t Ht)
    as [_ Hf].
  rewrite Hf, He. cbn [tasks in_registry]. split; [ done | ].
  intros ->. by rewrite lookup_insert_eq.
Qed.

(** An archive that does not open: the task ends FAILED, with the zero
    progress it was registered with and no result path. *)
Lemma fatal_failure_update_witness :
  tasks (final (process_cvs_task corrupt_env "t1" [] some_role
                  server_submitted)) !! "t1"
  = Some {| status := "FAILED"; progress := initial_progress;
            result_path := None;
            error := Some "File is not a zip file" |}.
Proof.
  destruct (fatal_failure_update corrupt_env "t1" [] some_role
              server_submitted initial_task
              (Exn "BadZipFile" "File is not a zip file"))
    as [_ H]; [ reflexivity | reflexivity | ].
  apply H. reflexivity.
Defined.

(** C6, as the code has it. [screen_cvs] registers the task as
    PROCESSING with zero progress. While the batch runs the entry is not
    touched: in every state the run goes through before its last one,
    [get_task_status] answers PROCESSING with that zero progress, however
    many documents are done. The entry is written once, when
    [process_zip] has ended; after a successful batch it shows COMPLETED,
    the path of the report, and the final counters of the screener, with
    [processed] equal to [total]. *)
Theorem registry_written_once (env : Env) (filename task_id : string)
    (zip_content : bytes) (role : JobRole) (s : Server) :
  endswith (lower filename) ".zip" = true ->
  get_task_status (screen_cvs env filename task_id s).2 task_id
  = Respond (untouched_status task_id)
  /\ (forall s',
        s' ∈ visited (process_cvs_task env task_id zip_content role
                        (screen_cvs env filename task_id s).2) ->
        s' = final (process_cvs_task env task_id zip_content role
                      (screen_cvs env filename task_id s).2)
        \/ get_task_status s' task_id = Respond (untouched_status task_id))
  /\ (forall path,
        outcome (process_zip env zip_content (batch_world role (world s)))
        = Return path ->
        exists current,
          get_task_status
            (final (process_cvs_task env task_id zip_content role
                      (screen_cvs env filename task_id s).2)) task_id
          = Respond {| ts_task_id := task_id; ts_status := "COMPLETED";
                       ts_progress := current;
                       ts_result_path := Some path; ts_error := None |}
          /\ current
             = get_progress
                 (self (world (final (process_cvs_task env task_id
                    zip_content role (screen_cvs env filename task_id s).2))))
          /\ processed current = total current).
Proof.
  intros Hzip.
  destruct (screen_cvs_registers env filename task_id s Hzip)
    as (_ & Hreg & Hworld).
  remember (screen_cvs env filename task_id s).2 as s1 eqn:Hs1. clear Hs1.
  destruct (process_cvs_task_run env task_id zip_content role s1
              initial_task Hreg) as [Hv Hf].
  split; [ | split ].
  - unfold get_task_status. by rewrite Hreg.
  - intros s' Hin. rewrite Hv in Hin.
    apply elem_of_app in Hin as [Hin | Hin].
    + right. apply list_elem_of_In, in_map_iff in Hin as (w' & <- & _).
      unfold get_task_status, in_registry. cbn [tasks]. by rewrite Hreg.
    + left. by apply list_elem_of_singleton in Hin.
  - intros path Ho. rewrite Hworld in Hf. rewrite Hf, Ho.
    eexists. split; [ | split; [ reflexivity | ] ].
    + unfold get_task_status, in_registry. cbn [tasks].
      rewrite lookup_insert_eq. reflexivity.
    + cbn [in_registry world get_progress processed total].
      destruct (zip_open env zip_content) as [zf|e] eqn:Hz.
      * destruct (process_zip_rows env zip_content
                    (batch_world role (world s)) zf Hz)
          as (_ & -> & -> & _). done.
      * destruct (process_zip_unopened env zip_content
                    (batch_world role (world s)) e Hz) as (_ & _ & Hout).
        rewrite Ho in Hout.
        by destruct (outcome (cleanup _)).
Qed.

Lemma registry_written_once_witness :
  get_task_status server_submitted "t1" = Respond (untouched_status "t1")
  /\ exists current,
       get_task_status
         (final (process_cvs_task scenario_env "t1" [] some_role
                   server_submitted)) "t1"
       = Respond {| ts_task_id := "t1"; ts_status := "COMPLETED";
                    ts_progress := current;
                    ts_result_path := Some report_name; ts_error := None |}
       /\ processed current = total current.
Proof.
  destruct (registry_written_once scenario_env "cvs.zip" "t1" [] some_role
              empty_server eq_refl) as (H1 & _ & H3).
  split; [ exact H1 | ].
  destruct (H3 report_name) as (current & Hc & _ & Heq);
    [ vm_compute; reflexivity | ].
  exists current. split; [ exact Hc | exact Heq ].
Defined.

(** C6, as stated, fails. Two documents: when the second one is being
    sent to the service, the screener has counted the first, the task is
    still running, and [get_task_status] still answers with the zero
    progress. *)
Lemma progress_not_published :
  exists k s',
    visited (process_cvs_task two_docs_env "t1" [] some_role server_submitted)
      !! k = Some s'
    /\ processed_count (self (world s')) = 1
    /\ current_status (self (world s')) = "Processing b.pdf"
    /\ api_calls (world s') = 1
    /\ exists answer,
         get_task_status s' "t1" = Respond answer
         /\ ts_status answer = "PROCESSING"
         /\ processed (ts_progress answer) = 0.
Proof.
  exists 11. eexists. split; [ vm_compute; reflexivity | ].
  repeat split. eexists. repeat split.
Qed.

(* ===================================================================== *)
(** ** The [finally] block of a batch                                    *)
(* ===================================================================== *)

(** When no document of the archive sits in a sub-directory, [temp] is
    gone after the batch, however the batch ends, and the [finally]
    block does not change the way the batch ends. *)
Lemma process_zip_cleans_flat env zip_file w :
  tidy (temp w) ->
  (forall zf, zip_open env zip_file = Return zf -> flat_names (map name zf)) ->
  temp (final (process_zip env zip_file w)) = None
  /\ outcome (process_zip env zip_file w)
     = match zip_open env zip_file with
       | Return zf =>
           outcome (after_extraction env (validated env zf)
                      (final (extraction_phase env zip_file w)))
       | Raise e => Raise e
       end.
Proof.
  intros Htidy Hflat.
  pose proof (extraction_phase_tidy env zip_file w Htidy Hflat) as Htidy1.
  destruct (zip_open env zip_file) as [zf|e] eqn:Hz.
  - destruct (process_zip_opened env zip_file w zf Hz) as (_ & -> & ->).
    destruct (extraction_phase_run env zip_file w) as (_ & Hself & _ & _).
    generalize dependent (final (extraction_phase env zip_file w)).
    intros w1 Htidy1 Hself.
    assert (Hzero : processed_count (self w1) = 0) by (by rewrite Hself).
    destruct (after_extraction_run env (validated env zf) w1 Hzero)
      as (_ & _ & _ & Htemp & _).
    generalize dependent (after_extraction env (validated env zf) w1).
    intros ra Htemp.
    destruct (cleanup_tidy (final ra)) as [Ho Ht]; [ by rewrite Htemp | ].
    by rewrite Ho, Ht.
  - destruct (process_zip_unopened env zip_file w e Hz) as (_ & -> & ->).
    destruct (cleanup_tidy (final (extraction_phase env zip_file w)) Htidy1)
      as [Ho Ht].
    by rewrite Ho, Ht.
Qed.

(** C9. At an archive made by zipping a folder ([cvs/a.pdf]), the
    [finally] block finds the directory [cvs] in [temp]: [os.remove]
    raises on it, [temp] and its contents stay on disk, and the task
    ends FAILED although the report had been written. *)
Theorem cleanup_fails_on_folder :
  outcome (process_zip folder_env [] fresh_world)
  = Raise (IsADirectoryError "[Errno 21] Is a directory: 'temp/cvs'")
  /\ temp (final (process_zip folder_env [] fresh_world))
     = Some {[ "cvs" := KDir ]}
  /\ is_Some (disk (final (process_zip folder_env [] fresh_world))
                !! report_name)
  /\ tasks (final (process_cvs_task folder_env "t1" [] some_role
                     server_submitted)) !! "t1"
     = Some {| status := "FAILED"; progress := initial_progress;
               result_path := None;
               error := Some "[Errno 21] Is a directory: 'temp/cvs'" |}.
Proof.
  split; [ vm_compute; reflexivity | ].
  split; [ vm_compute; reflexivity | ].
  split; [ vm_compute; by eexists | ].
  vm_compute; reflexivity.
Qed.

(* ===================================================================== *)
(** ** Failures of single documents                                      *)
(* ===================================================================== *)



(** A batch whose archive opens, whose documents are not in
    sub-directories and whose report can be written ends COMPLETED. *)
Lemma batch_completes env task_id zip_content role s t zf :
  tasks s !! task_id = Some t ->
  zip_open env zip_content = Return zf ->
  flat_names (map name zf) ->
  tidy (temp (world s)) ->
  (forall path wb, excel_write env path wb = Return tt) ->
  exists path metadata,
    outcome (process_zip env zip_content (batch_world role (world s)))
    = Return path
    /\ tasks (final (process_cvs_task env task_id zip_content role s))
         !! task_id
       = Some (completed
                 (self (world (final (process_cvs_task env task_id
                                        zip_content role s))))
                 path t)
    /\ disk (world (final (process_cvs_task env task_id zip_content role s)))
         !! path
       = Some (report_workbook metadata
                 (results (self (world (final (process_cvs_task env task_id
                                                 zip_content role s))))))
    /\ temp (world (final (process_cvs_task env task_id zip_content role s)))
       = None.
Proof.
  intros Ht Hz Hflat Htidy Hwrite.
  destruct (process_cvs_task_run env task_id zip_content role s t Ht)
    as [_ Hf].
  rewrite Hf. cbn [in_registry world tasks]. rewrite lookup_insert_eq.
  destruct (process_zip_cleans_flat env zip_content
              (batch_world role (world s))) as [Htemp Hout].
  { exact Htidy. }
  { intros zf' Hz'. rewrite Hz in Hz'. by injection Hz' as <-. }
  rewrite Hz in Hout.
  destruct (process_zip_opened env zip_content (batch_world role (world s))
              zf Hz) as (_ & Hfin & _).
  destruct (extraction_phase_run env zip_content (batch_world role (world s)))
    as (_ & Hself & _ & _).
  generalize dependent (process_zip env zip_content
                          (batch_world role (world s))).
  intros pz Hf Htemp Hout Hfin.
  generalize dependent (final (extraction_phase env zip_content
                                 (batch_world role (world s)))).
  intros w1 Hself Hout Hfin.
  assert (Hzero : processed_count (self w1) = 0) by (by rewrite Hself).
  destruct (after_extraction_run env (validated env zf) w1 Hzero)
    as (_ & _ & _ & _ & _ & _ & Hrep).
  rewrite Hwrite in Hrep. destruct Hrep as [Hra Hdisk].
  destruct (cleanup_frame (final (after_extraction env (validated env zf) w1)))
    as [_ Hcf].
  generalize dependent (after_extraction env (validated env zf) w1).
  intros ra Hout Hfin Hra Hdisk Hcf.
  unfold same, outside_temp in Hcf. rewrite <- Hfin in Hcf.
  injection Hcf as Hcself Hcdisk _ _ _.
  rewrite Hout, Hra. eexists _, _. split; [ reflexivity | ].
  split; [ reflexivity | ]. split; [ | exact Htemp ].
  rewrite Hcdisk, Hdisk, Hcself. by rewrite lookup_insert_eq.
Qed.



(* ===================================================================== *)
(** ** What extraction keeps                                             *)
(* ===================================================================== *)

Lemma append_cancel_l (p a b : string) : p +:+ a = p +:+ b -> a = b.
Proof.
  induction p as [|c p IH]; cbn; [ done | ]. intros [= H]. by apply IH.
Qed.






(** An archive without any document is a legal batch of zero documents. *)
Example empty_batch_completes :
  tasks (final (process_cvs_task quiet_env "t1" [] some_role
                  server_submitted)) !! "t1"
  = Some {| status := "COMPLETED";
            progress := {| processed := 0; total := 0;
                           progress_status := "Initializing";
                           percentage := PctZero |};
            result_path := Some report_name; error := None |}.
Proof. vm_compute. reflexivity. Qed.

(* ===================================================================== *)
(** ** The report and its name                                           *)
(* ===================================================================== *)

Lemma is_digit_digit n : is_digit (digit n) = true.
Proof.
  unfold is_digit, digit.
  pose proof (Nat.mod_upper_bound n 10 ltac:(lia)) as H.
  rewrite nat_ascii_embedding by lia.
  apply andb_true_iff. split; apply Nat.leb_le; lia.
Qed.

Lemma digit_inj a b : digit a = digit b -> a mod 10 = b mod 10.
Proof.
  unfold digit. intros H.
  pose proof (Nat.mod_upper_bound a 10 ltac:(lia)).
  pose proof (Nat.mod_upper_bound b 10 ltac:(lia)).
  apply (f_equal nat_of_ascii) in H.
  rewrite !nat_ascii_embedding in H by lia. lia.
Qed.

Lemma pad2_inj a b : a < 100 -> b < 100 -> pad2 a = pad2 b -> a = b.
Proof.
  unfold pad2. intros Ha Hb [= H1 H2].
  apply digit_inj in H1, H2.
  pose proof (Nat.div_mod_eq a 10). pose proof (Nat.div_mod_eq b 10).
  assert (a / 10 < 10) by (apply Nat.Div0.div_lt_upper_bound; lia).
  assert (b / 10 < 10) by (apply Nat.Div0.div_lt_upper_bound; lia).
  rewrite (Nat.mod_small (a / 10)) in H1 by lia.
  rewrite (Nat.mod_small (b / 10)) in H1 by lia. lia.
Qed.

Lemma append_pad2_inj a b s s' :
  a < 100 -> b < 100 -> pad2 a +:+ s = pad2 b +:+ s' -> a = b /\ s = s'.
Proof.
  intros Ha Hb H. unfold pad2 in H. cbn [String.append] in H.
  injection H as H1 H2 H3. split; [ | done ].
  apply pad2_inj; [ done | done | ]. unfold pad2.
  f_equal; [ exact H1 | f_equal; exact H2 ].
Qed.

Lemma append_String c s t : String c s +:+ t = String c (s +:+ t).
Proof. reflexivity. Qed.

Lemma append_empty t : "" +:+ t = t.
Proof. reflexivity. Qed.

Lemma append_assoc a b c : (a +:+ b) +:+ c = a +:+ (b +:+ c).
Proof.
  induction a as [|x a IH]; [ done | ].
  by rewrite !append_String, IH.
Qed.

Lemma timestamp_is_shaped t : timestamp_shaped (strftime_timestamp t) = true.
Proof.
  unfold timestamp_shaped, strftime_timestamp, pad4, pad2.
  repeat rewrite ?append_String, ?append_empty.
  cbn -[digit is_digit Nat.div Nat.modulo].
  rewrite !is_digit_digit. reflexivity.
Qed.

(** Reports get the same path exactly when they are generated within the
    same calendar second. *)
Lemma report_path_same_second t1 t2 :
  valid_datetime t1 -> valid_datetime t2 ->
  report_path t1 = report_path t2 <-> same_second t1 t2.
Proof.
  intros (Hy1 & Hm1 & Hd1 & HH1 & HM1 & HS1 & _)
         (Hy2 & Hm2 & Hd2 & HH2 & HM2 & HS2 & _).
  unfold same_second. split.
  - unfold report_path, strftime_timestamp, pad4. intros H.
    apply append_cancel_l in H.
    rewrite !append_assoc in H.
    pose proof (Nat.mod_upper_bound (year t1) 100 ltac:(lia)).
    pose proof (Nat.mod_upper_bound (year t2) 100 ltac:(lia)).
    assert (year t1 / 100 < 100) by (apply Nat.Div0.div_lt_upper_bound; lia).
    assert (year t2 / 100 < 100) by (apply Nat.Div0.div_lt_upper_bound; lia).
    apply append_pad2_inj in H as [Ey1 H]; [ | lia | lia ].
    apply append_pad2_inj in H as [Ey2 H]; [ | lia | lia ].
    apply append_pad2_inj in H as [Em H]; [ | lia | lia ].
    apply append_pad2_inj in H as [Ed H]; [ | lia | lia ].
    apply (append_cancel_l "_") in H.
    apply append_pad2_inj in H as [EH H]; [ | lia | lia ].
    apply append_pad2_inj in H as [EM H]; [ | lia | lia ].
    apply append_pad2_inj in H as [ES _]; [ | lia | lia ].
    pose proof (Nat.div_mod_eq (year t1) 100).
    pose proof (Nat.div_mod_eq (year t2) 100).
    repeat split; lia.
  - intros (Ey & Em & Ed & EH & EM & ES).
    unfold report_path, strftime_timestamp.
    by rewrite Ey, Em, Ed, EH, EM, ES.
Qed.

(** A failing spreadsheet writer fails the whole batch. *)
Lemma report_failure_is_fatal env task_id zip_content role s t zf :
  tasks s !! task_id = Some t ->
  zip_open env zip_content = Return zf ->
  (forall path wb, exists e, excel_write env path wb = Raise e) ->
  exists e',
    tasks (final (process_cvs_task env task_id zip_content role s))
      !! task_id = Some (failed e' t).
Proof.
  intros Ht Hz Hwrite.
  destruct (process_cvs_task_run env task_id zip_content role s t Ht)
    as [_ Hf].
  rewrite Hf. cbn [in_registry tasks]. rewrite lookup_insert_eq.
  destruct (process_zip_opened env zip_content (batch_world role (world s))
              zf Hz) as (_ & _ & Hout).
  destruct (extraction_phase_run env zip_content (batch_world role (world s)))
    as (_ & Hself & _ & _).
  generalize dependent (process_zip env zip_content
                          (batch_world role (world s))).
  intros pz Hf Hout.
  generalize dependent (final (extraction_phase env zip_content
                                 (batch_world role (world s)))).
  intros w1 Hself Hout.
  assert (Hzero : processed_count (self w1) = 0) by (by rewrite Hself).
  destruct (after_extraction_run env (validated env zf) w1 Hzero)
    as (_ & _ & _ & _ & _ & _ & Hrep).
  match type of Hrep with
  | match excel_write env ?p ?wb with _ => _ end =>
      destruct (Hwrite p wb) as [e He]; rewrite He in Hrep
  end.
  destruct Hrep as [Hra _]. rewrite Hra in Hout. rewrite Hout.
  destruct (outcome (cleanup _)); eauto.
Qed.

(** C8, as the code has it. The report is a workbook of two sheets,
    "Metadata" and "Analysis Results" (the rows of [results]), saved at
    [results/cv_analysis_<YYYYMMDD_HHMMSS>.xlsx], the stamp being the
    reading of the clock to the second; a failure of the writer is raised
    as one [ValueError] and makes the task FAILED. The name tells reports
    apart only across seconds: two reports get the same path exactly when
    they are generated within the same calendar second. *)
Theorem report_builder (env : Env) (w : World) :
  (forall n, valid_datetime (datetime_now env n)) ->
  timestamp_shaped (strftime_timestamp (datetime_now env (S (clock_reads w))))
  = true
  /\ (forall u,
        excel_write env
          ("results/cv_analysis_"
           +:+ strftime_timestamp (datetime_now env (S (clock_reads w)))
           +:+ ".xlsx")
          [ ("Metadata",
             [report_metadata (self w) (datetime_now env (clock_reads w))]);
            ("Analysis Results", results (self w)) ] = Return u ->
        outcome (_generate_excel_report env w)
        = Return ("results/cv_analysis_"
                  +:+ strftime_timestamp (datetime_now env (S (clock_reads w)))
                  +:+ ".xlsx")
        /\ disk (final (_generate_excel_report env w))
             !! ("results/cv_analysis_"
                 +:+ strftime_timestamp (datetime_now env (S (clock_reads w)))
                 +:+ ".xlsx")
           = Some [ ("Metadata",
                     [report_metadata (self w)
                        (datetime_now env (clock_reads w))]);
                    ("Analysis Results", results (self w)) ])
  /\ (forall e,
        excel_write env
          ("results/cv_analysis_"
           +:+ strftime_timestamp (datetime_now env (S (clock_reads w)))
           +:+ ".xlsx")
          [ ("Metadata",
             [report_metadata (self w) (datetime_now env (clock_reads w))]);
            ("Analysis Results", results (self w)) ] = Raise e ->
        outcome (_generate_excel_report env w)
        = Raise (ValueError ("Failed to generate Excel report: " +:+ str e)))
  /\ (forall task_id zip_content role s t zf,
        tasks s !! task_id = Some t ->
        zip_open env zip_content = Return zf ->
        (forall path wb, exists e, excel_write env path wb = Raise e) ->
        exists t',
          tasks (final (process_cvs_task env task_id zip_content role s))
            !! task_id = Some t'
          /\ status t' = "FAILED")
  /\ (forall t1 t2,
        valid_datetime t1 -> valid_datetime t2 ->
        report_path t1 = report_path t2 <-> same_second t1 t2).
Proof.
  intros Hclock.
  split; [ apply timestamp_is_shaped | ].
  pose proof (generate_report_run env w) as Hrun.
  unfold report_path, report_workbook in Hrun.
  split; [ | split; [ | split ] ].
  - intros u Hx. rewrite Hx in Hrun. destruct Hrun as [Ho Hd].
    split; [ exact Ho | ]. rewrite Hd. by rewrite lookup_insert_eq.
  - intros e Hx. rewrite Hx in Hrun. by destruct Hrun as [Ho _].
  - intros task_id zip_content role s t zf Ht Hz Hwrite.
    destruct (report_failure_is_fatal env task_id zip_content role s t zf
                Ht Hz Hwrite) as [e' He'].
    exists (failed e' t). split; [ exact He' | reflexivity ].
  - intros t1 t2. apply report_path_same_second.
Qed.

(** A disk that is full: the report cannot be written and the task of
    the scenario ends FAILED. *)
Lemma report_builder_witness :
  timestamp_shaped "20240309_140507" = true
  /\ outcome (_generate_excel_report disk_full_env fresh_world)
     = Raise (ValueError ("Failed to generate Excel report: "
                          +:+ "[Errno 28] No space left on device"))
  /\ outcome (_generate_excel_report scenario_env fresh_world)
     = Return "results/cv_analysis_20240309_140507.xlsx".
Proof.
  assert (Hvalid : forall n : nat, valid_datetime (datetime_now quiet_env n)).
  { intros n. unfold valid_datetime.
    cbn [datetime_now quiet_env year month day hour minute second
         microsecond]. lia. }
  destruct (report_builder disk_full_env fresh_world Hvalid)
    as (Hshape & _ & Hfail & _).
  destruct (report_builder scenario_env fresh_world Hvalid)
    as (_ & Hok & _).
  split; [ exact Hshape | ]. split.
  - apply (Hfail (OSError "[Errno 28] No space left on device")). reflexivity.
  - apply (Hok tt). reflexivity.
Defined.

(** C8, as stated, fails on "uniquely named". Two batches whose reports
    are generated at different instants of the same second get the same
    path: the second report replaces the first, and the first task now
    points at the report of the second. *)
Lemma report_names_collide :
  racing_clock 1 <> racing_clock 3
  /\ (exists t1 t2,
        tasks after_second_batch !! "t1" = Some t1
        /\ tasks after_second_batch !! "t2" = Some t2
        /\ status t1 = "COMPLETED" /\ status t2 = "COMPLETED"
        /\ result_path t1 = Some report_name
        /\ result_path t2 = Some report_name)
  /\ (exists first second,
        disk (world after_first_batch) !! report_name = Some first
        /\ disk (world after_second_batch) !! report_name = Some second
        /\ first <> second).
Proof.
  split; [ discriminate | ]. split.
  - eexists _, _. split; [ vm_compute; reflexivity | ].
    split; [ vm_compute; reflexivity | ]. repeat split.
  - eexists _, _. split; [ vm_compute; reflexivity | ].
    split; [ vm_compute; reflexivity | ]. discriminate.
Qed.

(* ===================================================================== *)
(** * Further properties of the code                                     *)
(* ===================================================================== *)

(** ** [analyze_cv]: one service call chain, then validation             *)

(** [analyze_cv] is the retry loop followed by validation: nothing is
    caught in between. *)
Lemma analyze_cv_run env w :
  outcome (analyze_cv env w)
  = match outcome (_call_gemini_api env w) with
    | Return response => _parse_response env response
    | Raise e => Raise e
    end
  /\ final (analyze_cv env w) = final (_call_gemini_api env w).
Proof.
  unfold analyze_cv, try_except, bind, lift, raise.
  destruct (outcome (_call_gemini_api env w)) as [response|e]; cbn.
  - by destruct (_parse_response env response).
  - done.
Qed.

(** X1. A response that fails validation is not retried: when the first
    call to the service answers and [_parse_response] refuses the answer,
    [analyze_cv] raises that [ValueError] after exactly one call and
    without waiting. *)
Theorem malformed_answer_not_retried (env : Env) (w : World)
    (response : Response) (e : exn) :
  chat_create env (api_calls w) = Return response ->
  _parse_response env (Some response) = Raise e ->
  outcome (analyze_cv env w) = Raise e
  /\ api_calls (final (analyze_cv env w)) = api_calls w + 1
  /\ sleeps (final (analyze_cv env w)) = sleeps w.
Proof.
  intros Hc Hp.
  destruct (analyze_cv_run env w) as [Ho Hf].
  destruct (call_first_success env w response Hc) as (Hco & Hca & Hcs).
  rewrite Ho, Hf, Hco, Hp. done.
Qed.

Lemma malformed_answer_not_retried_witness :
  outcome (analyze_cv chatty_env fresh_world)
  = Raise (ValueError "Failed to parse API response: Expecting value")
  /\ api_calls (final (analyze_cv chatty_env fresh_world)) = 1
  /\ sleeps (final (analyze_cv chatty_env fresh_world)) = [].
Proof.
  apply (malformed_answer_not_retried chatty_env fresh_world some_answer);
    reflexivity.
Defined.

(** X2. Whatever goes wrong inside [_parse_response] (no response, no
    choice, text that is not JSON, a value that has no members, a
    missing field), the caller sees a [ValueError] whose message starts
    with "Failed to parse API response: ". *)
Theorem parse_errors_are_value_errors (env : Env)
    (response : option Response) (e : exn) :
  _parse_response env response = Raise e ->
  exn_class e = "ValueError"
  /\ exists detail, str e = "Failed to parse API response: " +:+ detail.
Proof.
  intros H. apply parse_raises_value_error in H as [m ->].
  split; [ reflexivity | by exists m ].
Qed.

Lemma parse_errors_are_value_errors_witness :
  exn_class (ValueError
    "Failed to parse API response: 'NoneType' object has no attribute 'choices'")
  = "ValueError".
Proof.
  apply (parse_errors_are_value_errors quiet_env None). reflexivity.
Defined.

(** ** Rows of the report                                                *)

Lemma dict_get_set k k' v d :
  dict_get k (dict_set k' v d)
  = if String.eqb k k' then Some v else dict_get k d.
Proof.
  induction d as [|[k0 v0] d IH]; cbn.
  - done.
  - destruct (String.eqb_spec k' k0) as [->|Hne]; cbn.
    + by destruct (String.eqb k k0).
    + destruct (String.eqb_spec k k0) as [->|Hne'].
      * destruct (String.eqb_spec k0 k'); [ congruence | done ].
      * exact IH.
Qed.

(** Reading a merged dict: the last value the second dict gives to the
    key, else the value of the first. *)
Lemma dict_get_merge k extra : forall d,
  dict_get k (dict_merge d extra)
  = match dict_get k (rev extra) with
    | Some v => Some v
    | None => dict_get k d
    end.
Proof.
  unfold dict_merge.
  induction extra as [|[k' v'] extra IH] using rev_ind; intros d; cbn.
  - done.
  - rewrite fold_left_app, rev_app_distr. cbn.
    rewrite dict_get_set. destruct (String.eqb k k'); [ done | apply IH ].
Qed.

(** X3. The "filename" of a success row is the base name of the document
    unless the analysis has a member called "filename": then the value
    the service sent takes its place. A failure row always carries the
    base name. *)
Theorem row_filename (filename : string) (members : dict) (row : dict)
    (message : string) :
  success_row filename (JObj members) = Return row ->
  dict_get "filename" row
  = match dict_get "filename" (rev members) with
    | Some sent => Some sent
    | None => Some (JStr filename)
    end
  /\ dict_get "filename" (failure_row filename message)
     = Some (JStr filename).
Proof.
  unfold success_row. intros [= <-]. split; [ | reflexivity ].
  rewrite dict_get_merge. by destruct (dict_get "filename" (rev members)).
Qed.

Lemma row_filename_witness :
  exists row,
    success_row "a.pdf" (JObj spoofed_members) = Return row
    /\ dict_get "filename" row = Some (JStr "other.pdf").
Proof.
  eexists. split; [ reflexivity | ].
  apply (row_filename "a.pdf" spoofed_members _ "").
  reflexivity.
Defined.

(** ** Calls to the service made by a batch                              *)










(** ** File names                                                        *)

Lemma basename_from_flat s : forall acc,
  has_slash s = false -> basename_from acc s = acc +:+ s.
Proof.
  induction s as [|c s IH]; intros acc; cbn [has_slash basename_from].
  - intros _. induction acc as [|x acc IHa]; [ done | ].
    by rewrite append_String, <- IHa.
  - destruct (Ascii.eqb c slash); [ discriminate | ]. cbn [orb].
    intros H. rewrite IH by done.
    by rewrite append_assoc, append_String, append_empty.
Qed.

Lemma basename_from_slash a s : forall acc,
  basename_from acc (a +:+ String slash s) = basename_from "" s.
Proof.
  induction a as [|c a IH]; intros acc.
  - rewrite append_empty. cbn [basename_from].
    by rewrite Ascii.eqb_refl.
  - rewrite append_String. cbn [basename_from].
    destruct (Ascii.eqb c slash); apply IH.
Qed.

Lemma basename_from_no_slash s : forall acc,
  has_slash acc = false -> has_slash (basename_from acc s) = false.
Proof.
  induction s as [|c s IH]; intros acc Hacc; cbn [basename_from].
  - exact Hacc.
  - destruct (Ascii.eqb c slash) eqn:Hc; apply IH; [ done | ].
    clear IH. induction acc as [|x acc IHa].
    + rewrite append_empty. cbn [has_slash]. by rewrite Hc.
    + rewrite append_String. cbn [has_slash] in *.
      apply orb_false_iff in Hacc as [-> Hacc]. by apply IHa.
Qed.

(** [basename] drops the directory a name is joined to, never returns a
    separator, and leaves a name without separator as it is. *)
Lemma basename_last_component (directory file : string) :
  basename (path_join directory file) = basename file
  /\ has_slash (basename file) = false
  /\ (has_slash file = false -> basename file = file).
Proof.
  unfold basename, path_join. split; [ | split ].
  - apply (basename_from_slash directory file "").
  - by apply basename_from_no_slash.
  - intros H. by rewrite basename_from_flat.
Qed.

Lemma digit_not_slash n : Ascii.eqb (digit n) slash = false.
Proof.
  apply Ascii.eqb_neq. intros H.
  apply (f_equal nat_of_ascii) in H. unfold digit in H.
  pose proof (Nat.mod_upper_bound n 10 ltac:(lia)).
  rewrite nat_ascii_embedding in H by lia.
  change (nat_of_ascii slash) with 47 in H. lia.
Qed.

(** The report is offered for download under its own name. *)
Lemma basename_report_path t :
  basename (report_path t)
  = "cv_analysis_" +:+ strftime_timestamp t +:+ ".xlsx".
Proof.
  unfold report_path, basename.
  change (basename_from ""
            ("results" +:+ String slash
               ("cv_analysis_" +:+ strftime_timestamp t +:+ ".xlsx"))
          = "cv_analysis_" +:+ strftime_timestamp t +:+ ".xlsx").
  rewrite basename_from_slash. rewrite basename_from_flat; [ done | ].
  unfold strftime_timestamp, pad4, pad2.
  repeat rewrite ?append_assoc, ?append_String, ?append_empty.
  cbn -[digit Nat.div Nat.modulo]. by rewrite !digit_not_slash.
Qed.

Lemma report_path_not_empty t : String.eqb (report_path t) "" = false.
Proof. reflexivity. Qed.

(** ** The background task, seen from the registry                       *)

Lemma task_run_outcome (batch : M World string) task_id role s :
  outcome
    (try_except
       (in_world (modify (set_self (fun _ =>
          CVScreener_init (role_data_of role)))) ;;;
        path <- in_world batch ;;
        current <- gets (fun s => get_progress (self (world s))) ;;
        tasks_update task_id (fun t =>
          {| status := "COMPLETED"; progress := current;
             result_path := Some path; error := error t |}))
       (fun e =>
          tasks_update task_id (fun t =>
            {| status := "FAILED"; progress := progress t;
               result_path := result_path t; error := Some (str e) |})) s)
  = match tasks s !! task_id with
    | Some _ => Return tt
    | None => Raise (Exn "KeyError" task_id)
    end
  /\ (tasks s !! task_id = None ->
      final
        (try_except
           (in_world (modify (set_self (fun _ =>
              CVScreener_init (role_data_of role)))) ;;;
            path <- in_world batch ;;
            current <- gets (fun s => get_progress (self (world s))) ;;
            tasks_update task_id (fun t =>
              {| status := "COMPLETED"; progress := current;
                 result_path := Some path; error := error t |}))
           (fun e =>
              tasks_update task_id (fun t =>
                {| status := "FAILED"; progress := progress t;
                   result_path := result_path t; error := Some (str e) |})) s)
      = in_registry (tasks s) (final (batch (batch_world role (world s))))).
Proof.
  unfold try_except, bind, in_world, tasks_update, modify, step, gets,
    in_registry.
  cbn [outcome final visited tasks world map].
  fold (batch_world role (world s)).
  destruct (batch (batch_world role (world s))) as [[path|e] w' v];
    cbn [outcome final visited tasks world map];
    destruct (tasks s !! task_id) as [t|] eqn:Ht;
    cbn [outcome final visited tasks world map]; rewrite ?Ht;
    cbn [outcome final visited tasks world map]; split; done.
Qed.

(** X6. On a registered task, [process_cvs_task] never raises; when it
    ends the task is COMPLETED or FAILED, never PROCESSING, and every
    other entry of the registry is as it was. *)
Theorem task_always_settles (env : Env) (task_id : string)
    (zip_content : bytes) (role : JobRole) (s : Server) (t : Task) :
  tasks s !! task_id = Some t ->
  outcome (process_cvs_task env task_id zip_content role s) = Return tt
  /\ (exists t',
        tasks (final (process_cvs_task env task_id zip_content role s))
          !! task_id = Some t'
        /\ (status t' = "COMPLETED" /\ is_Some (result_path t')
            \/ status t' = "FAILED" /\ is_Some (error t')))
  /\ (forall other, other <> task_id ->
        tasks (final (process_cvs_task env task_id zip_content role s))
          !! other = tasks s !! other).
Proof.
  intros Ht.
  destruct (task_run_outcome (process_zip env zip_content) task_id role s)
    as [Ho _].
  destruct (process_cvs_task_run env task_id zip_content role s t Ht)
    as [_ Hf].
  split; [ | split ].
  - unfold process_cvs_task. by rewrite Ho, Ht.
  - rewrite Hf. cbn [in_registry tasks]. rewrite lookup_insert_eq.
    eexists. split; [ reflexivity | ].
    destruct (outcome (process_zip env zip_content _)); cbn; eauto.
  - intros other Hne. rewrite Hf. cbn [in_registry tasks].
    by rewrite lookup_insert_ne.
Qed.

Lemma task_always_settles_witness :
  outcome (process_cvs_task corrupt_env "t2" [] some_role server_two_tasks)
  = Return tt
  /\ tasks (final (process_cvs_task corrupt_env "t2" [] some_role
                     server_two_tasks)) !! "t1"
     = Some initial_task.
Proof.
  destruct (task_always_settles corrupt_env "t2" [] some_role
              server_two_tasks initial_task eq_refl) as (Ho & _ & Hother).
  split; [ exact Ho | ].
  rewrite (Hother "t1") by discriminate. reflexivity.
Defined.

(** X7. On a task id that is not in the registry, the final update
    raises [KeyError]: the background task dies with it, after the batch
    has run, and the registry is left as it was. *)
Theorem unregistered_task_raises (env : Env) (task_id : string)
    (zip_content : bytes) (role : JobRole) (s : Server) :
  tasks s !! task_id = None ->
  (exists e, outcome (process_cvs_task env task_id zip_content role s)
             = Raise e /\ exn_class e = "KeyError")
  /\ tasks (final (process_cvs_task env task_id zip_content role s))
     = tasks s
  /\ world (final (process_cvs_task env task_id zip_content role s))
     = final (process_zip env zip_content (batch_world role (world s))).
Proof.
  intros Ht.
  destruct (task_run_outcome (process_zip env zip_content) task_id role s)
    as [Ho Hf].
  unfold process_cvs_task. rewrite Ho, (Hf Ht), Ht.
  split; [ by eexists | done ].
Qed.

Lemma unregistered_task_raises_witness :
  tasks (final (process_cvs_task quiet_env "nobody" [] some_role
                  server_submitted))
  = tasks server_submitted
  /\ is_Some (disk (world (final (process_cvs_task quiet_env "nobody" []
                                    some_role server_submitted)))
                !! report_name).
Proof.
  destruct (unregistered_task_raises quiet_env "nobody" [] some_role
              server_submitted eq_refl) as (_ & Ht & Hw).
  split; [ exact Ht | ]. rewrite Hw. vm_compute. by eexists.
Defined.

(** X8. While a batch runs its report cannot be fetched: in every state
    the run goes through before its last, [download_result] answers 400
    for a task that was not COMPLETED when the run started. *)
Theorem no_download_before_end (env : Env) (task_id : string)
    (zip_content : bytes) (role : JobRole) (s s' : Server) (t : Task) :
  tasks s !! task_id = Some t ->
  status t <> "COMPLETED" ->
  s' ∈ visited (process_cvs_task env task_id zip_content role s) ->
  s' = final (process_cvs_task env task_id zip_content role s)
  \/ download_result s' task_id = HTTPException 400 "Task not completed".
Proof.
  intros Ht Hst Hin.
  destruct (process_cvs_task_run env task_id zip_content role s t Ht)
    as [Hv _].
  rewrite Hv in Hin. apply elem_of_app in Hin as [Hin | Hin].
  - right. apply list_elem_of_In, in_map_iff in Hin as (w' & <- & _).
    unfold download_result, in_registry. cbn [tasks]. rewrite Ht.
    by destruct (String.eqb_spec (status t) "COMPLETED").
  - left. by apply list_elem_of_singleton in Hin.
Qed.

Lemma no_download_before_end_witness :
  download_result
    (in_registry (tasks server_submitted)
       (batch_world some_role (world server_submitted))) "t1"
  = HTTPException 400 "Task not completed".
Proof.
  destruct (no_download_before_end scenario_env "t1" [] some_role
              server_submitted
              (in_registry (tasks server_submitted)
                 (batch_world some_role (world server_submitted)))
              initial_task) as [H | H].
  - reflexivity.
  - discriminate.
  - apply (list_elem_of_lookup_2 _ 0). vm_compute. reflexivity.
  - apply (f_equal (fun x => tasks x !! "t1")) in H.
    vm_compute in H. discriminate.
  - exact H.
Defined.

(** X9. After a fatal failure the task shows FAILED with the message of
    the exception, and its report can never be fetched:
    [download_result] answers 400. *)
Theorem failed_task_is_visible (env : Env) (task_id : string)
    (zip_content : bytes) (role : JobRole) (s : Server) (t : Task) (e : exn) :
  tasks s !! task_id = Some t ->
  outcome (process_zip env zip_content (batch_world role (world s)))
  = Raise e ->
  get_task_status (final (process_cvs_task env task_id zip_content role s))
                  task_id
  = Respond {| ts_task_id := task_id; ts_status := "FAILED";
               ts_progress := progress t;
               ts_result_path := result_path t;
               ts_error := Some (str e) |}
  /\ download_result (final (process_cvs_task env task_id zip_content role s))
                     task_id
     = HTTPException 400 "Task not completed".
Proof.
  intros Ht He.
  destruct (process_cvs_task_run env task_id zip_content role s t Ht)
    as [_ Hf].
  rewrite Hf, He. unfold get_task_status, download_result, in_registry.
  cbn [tasks]. rewrite lookup_insert_eq. done.
Qed.

Lemma failed_task_is_visible_witness :
  download_result (final (process_cvs_task corrupt_env "t1" [] some_role
                            server_submitted)) "t1"
  = HTTPException 400 "Task not completed".
Proof.
  apply (failed_task_is_visible corrupt_env "t1" [] some_role
           server_submitted initial_task
           (Exn "BadZipFile" "File is not a zip file"));
    reflexivity.
Defined.

(** ** From a finished batch to the download                             *)

Lemma extraction_clock w w' :
  same (fun s => (disk s, api_calls s, sleeps s, clock_reads s)) w w' ->
  clock_reads w' = clock_reads w /\ disk w' = disk w.
Proof. unfold same. by intros [= -> _ _ ->]. Qed.

Lemma outside_temp_disk w w' : same outside_temp w w' -> disk w' = disk w.
Proof. unfold same, outside_temp. by intros [= _ -> _ _ _]. Qed.

(** What a batch does to the files under [results]: at most the report
    of this batch is written; nothing else is touched. *)
Lemma process_zip_disk env zip_file w :
  match zip_open env zip_file with
  | Return zf =>
      match outcome (after_extraction env (validated env zf)
                       (final (extraction_phase env zip_file w))) with
      | Return path =>
          path = report_path (datetime_now env (S (clock_reads w)))
          /\ exists wb,
               disk (final (process_zip env zip_file w))
               = <[path := wb]> (disk w)
      | Raise _ => disk (final (process_zip env zip_file w)) = disk w
      end
  | Raise _ => disk (final (process_zip env zip_file w)) = disk w
  end.
Proof.
  destruct (extraction_phase_run env zip_file w) as (_ & Hself & Hsame & _).
  apply extraction_clock in Hsame as [Hclock Hdisk].
  destruct (zip_open env zip_file) as [zf|e] eqn:Hz.
  - destruct (process_zip_opened env zip_file w zf Hz) as (_ & -> & _).
    generalize dependent (final (extraction_phase env zip_file w)).
    intros w1 Hself Hclock Hdisk.
    assert (Hzero : processed_count (self w1) = 0) by (by rewrite Hself).
    destruct (after_extraction_run env (validated env zf) w1 Hzero)
      as (_ & _ & _ & _ & _ & _ & Hrep).
    destruct (cleanup_frame (final (after_extraction env (validated env zf)
                                      w1))) as [_ Hc].
    apply outside_temp_disk in Hc.
    generalize dependent (after_extraction env (validated env zf) w1).
    intros ra Hrep Hc. rewrite Hc.
    rewrite Hclock, Hdisk in Hrep.
    destruct (excel_write env _ _) as [[]|e].
    + destruct Hrep as [-> ->]. split; [ done | by eexists ].
    + by destruct Hrep as [-> ->].
  - destruct (process_zip_unopened env zip_file w e Hz) as (_ & -> & _).
    destruct (cleanup_frame (final (extraction_phase env zip_file w)))
      as [_ Hc].
    apply outside_temp_disk in Hc. by rewrite Hc.
Qed.

(** X10. A batch never removes or changes a report of another batch that
    has a different path: after [process_zip], every path under
    [results] other than the one named after the second clock reading of
    this batch holds what it held before. *)
Theorem other_reports_untouched (env : Env) (zip_file : bytes) (w : World)
    (path : string) :
  path <> report_path (datetime_now env (S (clock_reads w))) ->
  disk (final (process_zip env zip_file w)) !! path = disk w !! path.
Proof.
  intros Hne. pose proof (process_zip_disk env zip_file w) as H.
  destruct (zip_open env zip_file) as [zf|e]; [ | by rewrite H ].
  destruct (outcome (after_extraction env (validated env zf) _))
    as [p|e]; [ | by rewrite H ].
  destruct H as (-> & wb & ->). by rewrite lookup_insert_ne.
Qed.

Lemma other_reports_untouched_witness :
  disk (final (process_zip scenario_env [] world_with_old_report))
    !! old_report_name
  = Some (report_workbook [] []).
Proof.
  rewrite (other_reports_untouched scenario_env [] world_with_old_report)
    by discriminate.
  reflexivity.
Defined.

(** X11. From submission to download: for a batch whose archive opens,
    whose documents are not in sub-directories and whose report can be
    written, [download_result] on the finished task returns the report
    file, under the name [cv_analysis_<stamp>.xlsx], the stamp being the
    second clock reading of the batch. *)
Theorem finished_batch_downloads (env : Env) (task_id : string)
    (zip_content : bytes) (role : JobRole) (s : Server) (t : Task)
    (zf : list ZipEntry) :
  tasks s !! task_id = Some t ->
  zip_open env zip_content = Return zf ->
  flat_names (map name zf) ->
  tidy (temp (world s)) ->
  (forall path wb, excel_write env path wb = Return tt) ->
  download_result (final (process_cvs_task env task_id zip_content role s))
                  task_id
  = Respond
      {| fr_path :=
           report_path (datetime_now env (S (clock_reads (world s))));
         fr_media_type := xlsx_media_type;
         fr_filename :=
           "cv_analysis_"
           +:+ strftime_timestamp
                 (datetime_now env (S (clock_reads (world s))))
           +:+ ".xlsx" |}.
Proof.
  intros Ht Hz Hflat Htidy Hwrite.
  destruct (batch_completes env task_id zip_content role s t zf
              Ht Hz Hflat Htidy Hwrite)
    as (path & metadata & Hout & Htask & Hdisk & _).
  pose proof (process_zip_disk env zip_content (batch_world role (world s)))
    as Hpath.
  rewrite Hz in Hpath.
  destruct (process_zip_cleans_flat env zip_content
              (batch_world role (world s))) as [_ Hout'].
  { exact Htidy. }
  { intros zf' Hz'. rewrite Hz in Hz'. by injection Hz' as <-. }
  rewrite Hz, Hout in Hout'. rewrite <- Hout' in Hpath.
  destruct Hpath as [Hpath _].
  change (clock_reads (batch_world role (world s)))
    with (clock_reads (world s)) in Hpath.
  unfold download_result. rewrite Htask.
  cbn [status completed result_path]. cbn [String.eqb Ascii.eqb negb].
  unfold os_path_exists. rewrite Hdisk.
  rewrite bool_decide_eq_true_2 by done.
  subst path. cbn [truthy]. rewrite report_path_not_empty.
  cbn [negb orb]. by rewrite basename_report_path.
Qed.

Lemma finished_batch_downloads_witness :
  download_result (final (process_cvs_task scenario_env "t1" [] some_role
                            server_submitted)) "t1"
  = Respond {| fr_path := report_name; fr_media_type := xlsx_media_type;
               fr_filename := "cv_analysis_20240309_140507.xlsx" |}.
Proof.
  apply (finished_batch_downloads scenario_env "t1" [] some_role
           server_submitted initial_task scenario_archive).
  - reflexivity.
  - reflexivity.
  - repeat constructor; vm_compute; congruence.
  - exact I.
  - reflexivity.
Defined.

(** X12. For an archive whose documents are not in sub-directories, and a
    [temp] directory that is absent or holds only plain files when the
    batch starts, [temp] is gone when [process_zip] ends, whether the
    archive opened or not and whether the report was written or not. *)
Theorem flat_archive_leaves_no_temp (env : Env) (zip_file : bytes) (w : World) :
  tidy (temp w) ->
  (forall zf, zip_open env zip_file = Return zf -> flat_names (map name zf)) ->
  temp (final (process_zip env zip_file w)) = None.
Proof.
  intros Htidy Hflat.
  by destruct (process_zip_cleans_flat env zip_file w Htidy Hflat).
Qed.

Lemma flat_archive_leaves_no_temp_witness :
  temp (final (process_zip disk_full_env [] fresh_world)) = None
  /\ temp (final (process_zip corrupt_env [] fresh_world)) = None.
Proof.
  split.
  - apply (flat_archive_leaves_no_temp disk_full_env [] fresh_world).
    + exact I.
    + intros zf [= <-]. repeat constructor; vm_compute; congruence.
  - apply (flat_archive_leaves_no_temp corrupt_env [] fresh_world).
    + exact I.
    + intros zf H. discriminate H.
Defined.

(** ** The progress a finished batch reports                             *)

Lemma single_cv_status env pdf_path w :
  current_status (self (final (_process_single_cv env pdf_path w)))
  = "Processing " +:+ basename pdf_path.
Proof.
  unfold _process_single_cv, results_append.
  generalize (analyze_cv_frame env). generalize (analyze_cv env).
  intros analyze Hframe.
  rewrite bind_modify. cbn [outcome final].
  generalize (eq_refl : current_status (self (set_self (set_current_status
                ("Processing " +:+ basename pdf_path)) w))
              = "Processing " +:+ basename pdf_path).
  generalize (set_self (set_current_status
                ("Processing " +:+ basename pdf_path)) w).
  intros w1 Hw1.
  destruct (_pdf_to_images env pdf_path) as [images|e].
  - rewrite bind_lift_Return.
    destruct (Hframe w1) as [_ Hfin].
    unfold same, outside_api in Hfin. injection Hfin as Hself _ _ _.
    destruct (outcome (analyze w1)) as [analysis|e] eqn:Ha.
    + rewrite (bind_Return _ _ _ analysis) by exact Ha. cbn [outcome final].
      destruct (success_row (basename pdf_path) analysis) as [row|e].
      * rewrite bind_lift_Return. unfold modify, step. cbn [outcome final].
        unfold set_self, set_results. cbn [self current_status].
        by rewrite Hself.
      * rewrite bind_lift_Raise. cbn [outcome final]. by rewrite Hself.
    + rewrite (bind_Raise _ _ _ e) by exact Ha. cbn [outcome final].
      by rewrite Hself.
  - rewrite bind_lift_Raise. cbn [outcome final]. exact Hw1.
Qed.

Lemma process_document_status env pdf_path w :
  current_status (self (final (process_document env pdf_path w)))
  = "Processing " +:+ basename pdf_path.
Proof.
  unfold process_document, try_finally, try_except, results_append.
  pose proof (single_cv_status env pdf_path w) as H.
  generalize dependent (_process_single_cv env pdf_path w). intros r H.
  destruct (outcome r); cbn; exact H.
Qed.




(** ** What extraction leaves in [temp]                                  *)




(** ** The name a document is recorded under                             *)

(** X5. A document extracted from the member [file] is recorded under
    the last component of [file]: the status text set by
    [_process_single_cv] and the failure row appended by the loop of
    [process_zip] both use it, it never contains a separator, and for a
    member that is not in a sub-directory it is the member name itself.
    Documents of different folders that share a base name are recorded
    under the same name. *)
Theorem recorded_name_is_last_component (env : Env) (file : string)
    (w : World) (e : exn) :
  outcome (_process_single_cv env (path_join temp_dir file) w) = Raise e ->
  current_status
    (self (final (process_document env (path_join temp_dir file) w)))
  = "Processing " +:+ basename file
  /\ results (self (final (process_document env (path_join temp_dir file) w)))
     = results (self w) ++ [failure_row (basename file) (str e)]
  /\ has_slash (basename file) = false
  /\ (has_slash file = false -> basename file = file).
Proof.
  intros He.
  destruct (basename_last_component temp_dir file) as (Hb & Hs & Hf).
  split; [ | split; [ | split; [ exact Hs | exact Hf ] ] ].
  - by rewrite process_document_status, Hb.
  - destruct (process_document_run env (path_join temp_dir file) w)
      as (_ & _ & (row & Hrow & Hres) & _).
    rewrite (row_of_document_failure _ _ _ e He) in Hrow.
    injection Hrow as <-. by rewrite Hres, Hb.
Qed.

Lemma recorded_name_is_last_component_witness :
  results (self (final (process_document quiet_env "temp/cvs/a.pdf"
                          fresh_world)))
  = [failure_row "a.pdf" "service unavailable"].
Proof.
  destruct (recorded_name_is_last_component quiet_env "cvs/a.pdf" fresh_world
              (Exn "APIError" "service unavailable")) as (_ & H & _).
  - reflexivity.
  - exact H.
Defined.
